(** * rail_gpz_v1: the feature encoder, the train/validation split and the
      chunked estimator of [src/rail/estimation/algos/gpz_v1.py]

    The Python module is embedded function by function.  NumPy arrays of
    [float64] are lists of primitive binary64 floats, a 2-D array is the
    list of its rows, a table read from HDF5 is a finite map from column
    names to columns, and the [mag_limits] dict, whose iteration order the
    code relies on, is an association list.  Code that can raise returns in
    the [result] monad. *)

From Stdlib Require Import PrimFloat FloatOps SpecFloat FloatAxioms.
From stdpp Require Import gmap strings list.

Local Open Scope Z_scope.

(** ** Exceptions and the error monad *)

Inductive error : Type :=
  | KeyError (key : string)
  | IndexError
  | ValueError
  | OverflowError
  | TypeError
  | LibraryError (tag : string).

Inductive result (A : Type) : Type :=
  | Ok (a : A)
  | Raise (e : error).
Arguments Ok {A} a.
Arguments Raise {A} e.

#[global] Instance result_ret : MRet result := fun A a => Ok a.

#[global] Instance result_bind : MBind result := fun A B k m =>
  match m with
  | Ok a => k a
  | Raise e => Raise e
  end.

(** [d[k]] on a Python dict. *)
Definition getitem {V} (d : gmap string V) (k : string) : result V :=
  match d !! k with
  | Some v => Ok v
  | None => Raise (KeyError k)
  end.

(** [l[i]] on a Python list, for a non-negative [i]. *)
Definition list_getitem {A} (l : list A) (i : nat) : result A :=
  match l !! i with
  | Some v => Ok v
  | None => Raise IndexError
  end.

(** ** Python numbers and slices *)

(** [float(n)] for a Python int: the nearest binary64, OverflowError when
    there is none.  This is the conversion [n * x] applies to [n]. *)
Definition float_of_int (n : Z) : result float :=
  let x := SF2Prim (binary_normalize prec emax n 0 false) in
  if PrimFloat.is_infinity x then Raise OverflowError else Ok x.

(** [int(x)] for a float: truncation toward zero; ValueError on NaN,
    OverflowError on an infinity. *)
Definition int_of_float (x : float) : result Z :=
  match Prim2SF x with
  | S754_zero _ => Ok 0
  | S754_finite s m e =>
      let a := Z.shiftl (Z.pos m) e in
      Ok (if s then - a else a)
  | S754_infinity _ => Raise OverflowError
  | S754_nan => Raise ValueError
  end.

(** The list position a slice bound [k] denotes in a sequence of [n]
    items: negative bounds count from the end, and all are clamped. *)
Definition slice_bound (k : Z) (n : nat) : nat :=
  if k <? 0 then Z.to_nat (Z.max 0 (Z.of_nat n + k))
  else Z.to_nat (Z.min k (Z.of_nat n)).

(** [l[:k]] and [l[k:]]. *)
Definition slice_to {A} (k : Z) (l : list A) : list A :=
  take (slice_bound k (length l)) l.
Definition slice_from {A} (k : Z) (l : list A) : list A :=
  drop (slice_bound k (length l)) l.

(** ** The part of NumPy the module uses *)

(** A 2-D [float64] array, as the list of its rows. *)
Abbreviation matrix := (list (list float)).

Module np.

Definition isnan (x : float) : bool := PrimFloat.is_nan x.

Definition isfinite (x : float) : bool := PrimFloat.is_finite x.

(** Default tolerances of [np.isclose], [1e-05] and [1e-08], written as
    the binary64 values Python reads them as. *)
Definition rtol : float := 0x1.4f8b588e368f1p-17%float.
Definition atol : float := 0x1.5798ee2308c3ap-27%float.

(** [np.isclose(a, b)] on one element, with [equal_nan=False]:
    [|a - b| <= atol + rtol * |b|] for a finite [b], or [a == b]. *)
Definition isclose (a b : float) : bool :=
  (PrimFloat.leb (abs (a - b)) (atol + rtol * abs b) && isfinite b)
  || PrimFloat.eqb a b.

(** [np.empty([r, c])]: an [r] by [c] array whose cells hold whatever the
    allocator left there, [uninit i j] at row [i] and column [j]. *)
Definition empty (uninit : nat -> nat -> float) (r c : nat) : matrix :=
  (fun i => uninit i <$> seq 0 c) <$> seq 0 r.

(** [np.zeros(n, dtype=bool)]. *)
Definition zeros (n : nat) : list bool := replicate n false.

(** Broadcasting a 1-D array to the [n] cells of a column: the lengths
    agree, or the array has one element, which is repeated. *)
Definition broadcast_to (n : nat) (col : list float) : result (list float) :=
  if decide (length col = n) then Ok col
  else match col with
       | [x] => Ok (replicate n x)
       | _ => Raise ValueError
       end.

(** [data[:, j] = col]. *)
Definition set_col (j : nat) (col : list float) (data : matrix) : result matrix :=
  c ← broadcast_to (length data) col;
  Ok (zip_with (fun row x => <[j:=x]> row) data c).

(** [data[:, j][mask] = v]: [data[:, j]] is a view, so the cells of
    [data] change; a boolean index of another length is an IndexError. *)
Definition set_col_where (j : nat) (mask : list bool) (v : float)
    (data : matrix) : result matrix :=
  if decide (length mask = length data)
  then Ok (zip_with (fun row (b : bool) => if b then <[j:=v]> row else row) data mask)
  else Raise IndexError.

(** [mask[idx] = True] with an integer index array. *)
Fixpoint set_true (mask : list bool) (idx : list nat) : result (list bool) :=
  match idx with
  | [] => Ok mask
  | i :: idx' =>
      if decide (i < length mask)%nat then set_true (<[i:=true]> mask) idx'
      else Raise IndexError
  end.

(** [np.argmax] over a 1-D array, scanning from position [i] with the
    running maximum [mp] found at [best]: a cell replaces the maximum
    when [cell <= mp] is false, and the scan stops at the first NaN. *)
Fixpoint argmax_from (mp : float) (best i : nat) (l : list float) : nat :=
  match l with
  | [] => best
  | x :: l' =>
      if isnan mp then best
      else if PrimFloat.leb x mp then argmax_from mp best (S i) l'
      else argmax_from x i (S i) l'
  end.

Definition argmax (l : list float) : result nat :=
  match l with
  | [] => Raise ValueError
  | x :: l' => Ok (argmax_from x 0 1 l')
  end.

(** [np.linspace(start, stop, num)] with the default [endpoint=True]. *)
Definition linspace (start stop : float) (num : Z) : result (list float) :=
  if num <? 0 then Raise ValueError
  else
    let div := num - 1 in
    let delta := (stop - start)%float in
    y ← mapM float_of_int (seqZ 0 num);
    div_f ← float_of_int div;
    let y :=
      if 0 <? div then
        let step := (delta / div_f)%float in
        if PrimFloat.eqb step 0
        then (fun v => v / div_f * delta)%float <$> y
        else (fun v => v * step)%float <$> y
      else (fun v => v * delta)%float <$> y in
    let y := (fun v => v + start)%float <$> y in
    Ok (if 1 <? num then <[Z.to_nat div := stop]> y else y).

End np.

(** [M[r, j]]. *)
Definition cell (M : matrix) (r j : nat) : option float :=
  M !! r ≫= fun row => row !! j.

(** ** [_prepare_data] *)

(** A table: column name to column. *)
Abbreviation table := (gmap string (list float)).

(** Line 26, on one element: the magnitude is close to the non-detection
    value, or is NaN. *)
Definition is_nondetect (nondet_val x : float) : bool :=
  np.isclose x nondet_val || np.isnan x.

Section prepare_data.

(** [np.log] on one element; binary64 has no primitive logarithm. *)
Variable np_log : float -> float.
(** The contents of freshly allocated memory, see [np.empty]. *)
Variable uninit : nat -> nat -> float.

(** Lines 25-32: the body of the loop for band position [i]. *)
Definition prepare_band (data_dict : table) (numbands : nat) (nondet_val : float)
    (logflag : bool) (i : nat) (band eband : string) (lim : float)
    (data : matrix) : result matrix :=
  col ← getitem data_dict band;
  data ← np.set_col i col data;
  let mask := is_nondetect nondet_val <$> col in
  data ← np.set_col_where i mask lim data;
  ecol ← getitem data_dict eband;
  data ← (if logflag
          then np.set_col (numbands + i) (np_log <$> ecol) data
          else np.set_col (numbands + i) ecol data);
  np.set_col_where (numbands + i) mask 1%float data.

(** Line 24: [for i, (band, eband, lim) in enumerate(zip(...))], from
    position [i] on. *)
Fixpoint prepare_loop (data_dict : table) (numbands : nat) (nondet_val : float)
    (logflag : bool) (items : list (string * (string * float))) (i : nat)
    (data : matrix) : result matrix :=
  match items with
  | [] => Ok data
  | (band, (eband, lim)) :: items' =>
      data ← prepare_band data_dict numbands nondet_val logflag i band eband lim data;
      prepare_loop data_dict numbands nondet_val logflag items' (S i) data
  end.

(** [maglims] is a Python dict: its keys are distinct and [.values()]
    lists the values in insertion order. *)
Definition _prepare_data (data_dict : table) (bands err_bands : list string)
    (nondet_val : float) (maglims : list (string * float)) (logflag : bool)
    : result matrix :=
  let numbands := length bands in
  band0 ← list_getitem bands 0;
  col0 ← getitem data_dict band0;
  let totrows := length col0 in
  let data := np.empty uninit totrows (2 * numbands) in
  prepare_loop data_dict numbands nondet_val logflag
    (zip bands (zip err_bands maglims.*2)) 0 data.

End prepare_data.

(** [maglims[band]]: the value stored under the key [band]. *)
Fixpoint dict_get (maglims : list (string * float)) (band : string) : option float :=
  match maglims with
  | [] => None
  | (k, v) :: rest => if decide (k = band) then Some v else dict_get rest band
  end.

(** ** [Inform_GPz_v1] *)

Record InformConfig : Type := {
  hdf5_groupname : string;
  nondetect_val : float;
  mag_limits : list (string * float);
  trainfrac : float;
  seed : Z;
  bands : list string;
  err_bands : list string;
  redshift_col : string;
  gpz_method : string;
  n_basis : Z;
  learn_jointly : bool;
  hetero_noise : bool;
  csl_method : string;
  csl_binwidth : float;
  pca_decorrelate : bool;
  max_iter : Z;
  max_attempt : Z;
  log_errors : bool
}.

(** What [get_data('input')] hands over: one table, or the groups of an
    HDF5 file, each a table. *)
Inductive input_data : Type :=
  | Columns (t : table)
  | Groups (g : gmap string table).

(** The module [GPz] imported on line 10 ([GP] and [getOmega]), with the
    state of NumPy's process-wide generator [rng] threaded through the
    calls that may draw from it or seed it.  The optional argument of
    [getOmega] is its keyword [binWidth], [None] when the call leaves it
    to the callee's default. *)
Record GPz_module (rng : Type) : Type := {
  omega : Type;
  GP_model : Type;
  getOmega : list float -> string -> option float -> result omega;
  GP : Z -> string -> bool -> bool -> bool -> Z -> rng -> result (GP_model * rng);
  GP_train : GP_model -> matrix -> list float -> omega -> list bool -> list bool ->
             Z -> Z -> rng -> result (GP_model * rng);
  GP_predict_row : GP_model -> list float -> float * float * float * float * float
}.
Arguments omega {rng} _.
Arguments GP_model {rng} _.
Arguments getOmega {rng} _ _ _ _.
Arguments GP {rng} _ _ _ _ _ _ _ _.
Arguments GP_train {rng} _ _ _ _ _ _ _ _ _ _.
Arguments GP_predict_row {rng} _ _ _.

Section inform.

Variable np_log : float -> float.
Variable uninit : nat -> nat -> float.
(** NumPy's process-wide generator: its state, and
    [np.random.permutation(n)], which returns a shuffled [arange(n)]
    and advances the state. *)
Variable rng : Type.
Variable np_random_permutation : rng -> nat -> list nat * rng.
Variable GPz : GPz_module rng.

(** Lines 92-97 of [run]: the masks for [ngal] rows. *)
Definition split_masks (ngal : nat) (trainfrac : float) (g : rng)
    : result (list bool * list bool * rng) :=
  ngal_f ← float_of_int (Z.of_nat ngal);
  ntrain ← int_of_float (ngal_f * trainfrac);
  let '(randvec, g) := np_random_permutation g ngal in
  train_mask ← np.set_true (np.zeros ngal) (slice_to ntrain randvec);
  val_mask ← np.set_true (np.zeros ngal) (slice_from ntrain randvec);
  Ok (train_mask, val_mask, g).

(** Lines 79-82 of [run]: the table to train on.  An input of the wrong
    shape for [hdf5_groupname] (a table where groups are expected, or the
    reverse) is a type confusion that Python meets at the first array
    operation; here it raises TypeError at once. *)
Definition training_table (config : InformConfig) (input : input_data)
    : result table :=
  if decide (hdf5_groupname config = "")
  then match input with
       | Columns t => Ok t
       | Groups _ => Raise TypeError
       end
  else match input with
       | Groups gs => getitem gs (hdf5_groupname config)
       | Columns _ => Raise TypeError
       end.

(** Lines 99-113 of [run]: the weights, the model and its training. *)
Definition train_calls (config : InformConfig) (input_array : matrix)
    (sz : list float) (train_mask val_mask : list bool) (g : rng)
    : result (GP_model GPz * rng) :=
  omega_weights ← getOmega GPz sz (csl_method config) None;
  '(model, g) ← GP GPz (n_basis config) (gpz_method config) (learn_jointly config)
                  (hetero_noise config) (pca_decorrelate config) (seed config) g;
  GP_train GPz model input_array sz omega_weights train_mask val_mask
    (max_iter config) (max_attempt config) g.

(** [Inform_GPz_v1.run]; the result is the model handed to
    [add_data('model', ...)].  The two [print] calls are left out. *)
Definition run (config : InformConfig) (input : input_data) (g : rng)
    : result (GP_model GPz * rng) :=
  training_data ← training_table config input;
  input_array ← _prepare_data np_log uninit training_data (bands config)
                   (err_bands config) (nondetect_val config) (mag_limits config)
                   (log_errors config);
  sz ← getitem training_data (redshift_col config);
  let ngal := length input_array in
  '(train_mask, val_mask, g) ← split_masks ngal (trainfrac config) g;
  train_calls config input_array sz train_mask val_mask g.

End inform.

(** ** [GPz_v1] *)

(** Rows [start] to [start + size - 1] of a table. *)
Definition table_rows (start size : nat) (t : table) : table :=
  (fun col => take size (drop start col)) <$> t.

Record EstimatorConfig : Type := {
  zmin : float;
  zmax : float;
  nzbins : Z;
  est_nondetect_val : float;
  est_mag_limits : list (string * float);
  est_bands : list string;
  est_err_bands : list string;
  ref_band : string;
  est_log_errors : bool
}.

(** [qp.stats.norm], the only family the estimator builds. *)
Inductive pdf_family : Type := norm.

(** A [qp.Ensemble] of a location-scale family: one [loc] and one [scale]
    per row, and the ancillary columns set by [set_ancil]. *)
Record Ensemble : Type := {
  gen : pdf_family;
  loc : list float;
  scale : list float;
  ancil : list (string * list float)
}.

Section estimate.

Variable np_log : float -> float.
Variable uninit : nat -> nat -> float.
Variable rng : Type.
Variable GPz : GPz_module rng.
(** [scipy.stats.norm.pdf(x, loc, scale)] on one element. *)
Variable norm_pdf : float -> float -> float -> float.

(** Modelled from the spec: [GP.predict] lives in [GPz.py], which is not
    among the sources; by sections 3 and 6 of the specification it takes
    a feature matrix and returns, per row, the predictive mean, the total
    variance, the model variance, the noise variance and a reserved
    value.  The five results are the columns of the per-row tuples. *)
Definition GP_predict (model : GP_model GPz) (X : matrix)
    : list float * list float * list float * list float * list float :=
  let rows := GP_predict_row GPz model <$> X in
  ((fun t => t.1.1.1.1) <$> rows, (fun t => t.1.1.1.2) <$> rows,
   (fun t => t.1.1.2) <$> rows, (fun t => t.1.2) <$> rows,
   (fun t => t.2) <$> rows).

(** The first two results of [GP.predict]: the mean and the total
    variance. *)
Definition predicted_mu (model : GP_model GPz) (X : matrix) : list float :=
  (GP_predict model X).1.1.1.1.
Definition predicted_totalV (model : GP_model GPz) (X : matrix) : list float :=
  (GP_predict model X).1.1.1.2.

(** [qp.Ensemble(gen, data=dict(loc=..., scale=...))]. *)
Definition qp_Ensemble (family : pdf_family) (loc scale : list float) : Ensemble :=
  {| gen := family; loc := loc; scale := scale; ancil := [] |}.

(** [ens.mode(grid=zgrid)]: for each row, the grid point at which the
    row's density is largest. *)
Definition ens_mode (ens : Ensemble) (grid : list float) : result (list float) :=
  match grid with
  | [] => Raise ValueError
  | _ =>
      mapM (fun ls : float * float =>
              k ← np.argmax (norm_pdf ls.1 ls.2 <$> grid);
              list_getitem grid k)
           (zip (loc ens) (scale ens))
  end.

(** [ens.set_ancil(d)]. *)
Definition set_ancil (ens : Ensemble) (d : list (string * list float)) : Ensemble :=
  {| gen := gen ens; loc := loc ens; scale := scale ens; ancil := d |}.

(** [GPz_v1._process_chunk]; the result is the ensemble passed to
    [_do_chunk_output] with [start], [end] and [first].  The [print]
    call is left out. *)
Definition _process_chunk (config : EstimatorConfig) (model : GP_model GPz)
    (start end_ : nat) (data : table) (first : bool)
    : result (Ensemble * nat * nat * bool) :=
  test_array ← _prepare_data np_log uninit data (est_bands config)
                  (est_err_bands config) (est_nondetect_val config)
                  (est_mag_limits config) (est_log_errors config);
  let '(mu, totalV, modelV, noiseV, _) := GP_predict model test_array in
  let ens := qp_Ensemble norm mu totalV in
  zgrid ← np.linspace (zmin config) (zmax config) (nzbins config);
  zmode ← ens_mode ens zgrid;
  let ens := set_ancil ens [("zmode", zmode)] in
  Ok (ens, start, end_, first).

(** The caller's loop over consecutive chunks ([CatEstimator.run], which
    is not part of this repository): chunk after chunk of the given sizes,
    the first at row [start], each handed to [_process_chunk] with its own
    rows of the table.  The result lists the ensembles written out. *)
Fixpoint process_chunks (config : EstimatorConfig) (model : GP_model GPz)
    (start : nat) (sizes : list nat) (data : table) (first : bool)
    : result (list Ensemble) :=
  match sizes with
  | [] => Ok []
  | size :: sizes' =>
      '(ens, _, _, _) ← _process_chunk config model start (start + size)
                          (table_rows start size data) first;
      rest ← process_chunks config model (start + size) sizes' data false;
      Ok (ens :: rest)
  end.

End estimate.

(** [ens.ancil["zmode"]], empty when there is no such column. *)
Definition zmode_of (ens : Ensemble) : list float :=
  default [] ((list_to_map (ancil ens) : gmap string (list float)) !! "zmode").

(** ** A [GPz] module that records its calls

    What a recording [GP] object remembers: the constructor's arguments
    and, once trained, those of [train]. *)
Record gp_record : Type := {
  rec_n_basis : Z;
  rec_method : string;
  rec_joint : bool;
  rec_heteroscedastic : bool;
  rec_decorrelate : bool;
  rec_seed : Z;
  rec_train : option (matrix * list float * (list float * string * option float)
                      * list bool * list bool * Z * Z)
}.

(** [getOmega] returns its own arguments, the constructor stores its
    arguments and lets [reseed] act on the generator, and [train] stores
    what it is given and lets [draw] act on the generator.  A prediction
    reads a sixteenth of the first two cells of the row as the mean and
    the model variance and adds a noise variance of [0.25]. *)
Definition recorder {rng : Type} (reseed : Z -> rng -> rng) (draw : rng -> rng)
    : GPz_module rng := {|
  omega := list float * string * option float;
  GP_model := gp_record;
  getOmega := fun sz method binWidth => Ok (sz, method, binWidth);
  GP := fun m method joint heteroscedastic decorrelate seed g =>
    Ok ({| rec_n_basis := m; rec_method := method; rec_joint := joint;
           rec_heteroscedastic := heteroscedastic; rec_decorrelate := decorrelate;
           rec_seed := seed; rec_train := None |}, reseed seed g);
  GP_train := fun model X Y om training validation maxIter maxAttempts g =>
    Ok ({| rec_n_basis := rec_n_basis model; rec_method := rec_method model;
           rec_joint := rec_joint model;
           rec_heteroscedastic := rec_heteroscedastic model;
           rec_decorrelate := rec_decorrelate model; rec_seed := rec_seed model;
           rec_train := Some (X, Y, om, training, validation, maxIter, maxAttempts) |},
        draw g);
  GP_predict_row := fun model row =>
    let mu := (default 0 (row !! 0%nat) / 16)%float in
    let modelV := (default 0 (row !! 1%nat) / 16)%float in
    (mu, (modelV + 0.25)%float, modelV, 0.25%float, 0%float)
|}.

(** The masks a recording model was trained with, and the call of
    [getOmega] whose result it was given. *)
Definition rec_masks (m : gp_record) : option (list bool * list bool) :=
  match rec_train m with
  | Some (_, _, _, training, validation, _, _) => Some (training, validation)
  | None => None
  end.

Definition rec_omega (m : gp_record) : option (list float * string * option float) :=
  match rec_train m with
  | Some (_, _, om, _, _, _, _) => Some om
  | None => None
  end.

(** ** Executable instances of the external collaborators

    The theorems below hold for every [np_log], every generator, every
    [GPz] module and every density.  To run the embedding on concrete
    tables they are instantiated here: series for the logarithm and the
    exponential, a linear congruential generator driving a Fisher-Yates
    shuffle, and the recording [GPz] module. *)

Module Sample.

Definition ln2 : float := 0x1.62e42fefa39efp-1%float.

(** [log x = e * ln 2 + 2 * atanh ((m - 1) / (m + 1))] for
    [x = m * 2^e] with [m] in [[0.5, 1)]. *)
Definition log (x : float) : float :=
  if PrimFloat.ltb x 0 then nan
  else if PrimFloat.eqb x 0 then neg_infinity
  else if negb (PrimFloat.is_finite x) then x
  else
    let '(m, e) := Z.frexp x in
    let t := ((m - 1) / (m + 1))%float in
    let t2 := (t * t)%float in
    let s := foldr (fun d acc => (1 / d + t2 * acc)%float) 0%float
               (SF2Prim ∘ (fun k => binary_normalize prec emax k 0 false)
                  <$> [1; 3; 5; 7; 9; 11; 13; 15; 17; 19; 21; 23; 25; 27; 29; 31]) in
    (SF2Prim (binary_normalize prec emax e 0 false) * ln2 + 2 * t * s)%float.

(** [exp x = 2^k * exp r] with [r = x - k * ln 2]. *)
Definition exp (x : float) : float :=
  match int_of_float (x / ln2) with
  | Raise _ => if PrimFloat.ltb x 0 then 0%float else x
  | Ok k =>
      let r := (x - SF2Prim (binary_normalize prec emax k 0 false) * ln2)%float in
      let s := foldr (fun d acc => (1 + r / d * acc)%float) 1%float
                 (SF2Prim ∘ (fun k => binary_normalize prec emax k 0 false)
                    <$> seqZ 1 24) in
      Z.ldexp s k
  end.

Definition sqrt_2pi : float := 0x1.40d931ff62706p+1%float.

(** The density of the normal distribution. *)
Definition norm_pdf (loc scale x : float) : float :=
  let z := ((x - loc) / scale)%float in
  (exp (- (z * z) / 2) / (sqrt_2pi * scale))%float.

(** Freshly allocated memory that happens to hold zeros. *)
Definition uninit (_ _ : nat) : float := 0%float.

(** The generator: a 32-bit linear congruential step, and a shuffle
    that places item [i] at a drawn position among the first [i]. *)
Definition lcg (s : Z) : Z := (1664525 * s + 1013904223) `mod` 4294967296.

Fixpoint shuffle (items : list nat) (acc : list nat) (s : Z) : list nat * Z :=
  match items with
  | [] => (acc, s)
  | x :: items' =>
      let s' := lcg s in
      let j := Z.to_nat (s' `mod` Z.of_nat (S (length acc))) in
      shuffle items' (take j acc ++ x :: drop j acc) s'
  end.

Definition permutation (s : Z) (n : nat) : list nat * Z := shuffle (seq 0 n) [] s.

(** The recording module at the generator above: the constructor
    seeds the generator and [train] draws from it once. *)
Definition GPz : GPz_module Z := recorder (fun seed _ => seed) lcg.

(** A table of three sources in two bands.  Source 1 is not detected in
    [u] (the magnitude is the non-detection value 99) and source 2 has
    no [g] magnitude (NaN). *)
Definition photometry : table :=
  list_to_map
    [("u", [20.5; 99; 21.25]%float); ("g", [21; 22; nan]%float);
     ("u_err", [0.5; 0.25; 0.125]%float); ("g_err", [1; 2; 4]%float);
     ("redshift", [0.125; 0.25; 0.5]%float)].

Definition band_names : list string := ["u"; "g"].
Definition err_names : list string := ["u_err"; "g_err"].

(** The limits keyed in band order, and the same dict keyed in the
    other order. *)
Definition limits : list (string * float) :=
  [("u", 27.5%float); ("g", 25%float)].
Definition swapped_limits : list (string * float) :=
  [("g", 25%float); ("u", 27.5%float)].

(** The training configuration of the test suite on the table above:
    the defaults of [config_options], no HDF5 group. *)
Definition inform_config : InformConfig := {|
  hdf5_groupname := "";
  nondetect_val := 99%float;
  mag_limits := limits;
  trainfrac := 0.75%float;
  seed := 87;
  bands := band_names;
  err_bands := err_names;
  redshift_col := "redshift";
  gpz_method := "VC";
  n_basis := 50;
  learn_jointly := true;
  hetero_noise := true;
  csl_method := "normal";
  csl_binwidth := 0.125%float;
  pca_decorrelate := true;
  max_iter := 30;
  max_attempt := 25;
  log_errors := true
|}.

(** The same with balanced cost-sensitive learning over bins of width
    [0.5], and another seed. *)
Definition balanced_config : InformConfig := {|
  hdf5_groupname := "";
  nondetect_val := 99%float;
  mag_limits := limits;
  trainfrac := 0.75%float;
  seed := 2024;
  bands := band_names;
  err_bands := err_names;
  redshift_col := "redshift";
  gpz_method := "VC";
  n_basis := 50;
  learn_jointly := true;
  hetero_noise := true;
  csl_method := "balanced";
  csl_binwidth := 0.5%float;
  pca_decorrelate := true;
  max_iter := 30;
  max_attempt := 25;
  log_errors := true
|}.

(** The same with a training fraction of a quarter: of three rows, none
    is left to train on. *)
Definition quarter_config : InformConfig := {|
  hdf5_groupname := "";
  nondetect_val := 99%float;
  mag_limits := limits;
  trainfrac := 0.25%float;
  seed := 87;
  bands := band_names;
  err_bands := err_names;
  redshift_col := "redshift";
  gpz_method := "VC";
  n_basis := 50;
  learn_jointly := true;
  hetero_noise := true;
  csl_method := "normal";
  csl_binwidth := 0.125%float;
  pca_decorrelate := true;
  max_iter := 30;
  max_attempt := 25;
  log_errors := true
|}.

Definition estimator_config : EstimatorConfig := {|
  zmin := 0%float;
  zmax := 3%float;
  nzbins := 301;
  est_nondetect_val := 99%float;
  est_mag_limits := limits;
  est_bands := band_names;
  est_err_bands := err_names;
  ref_band := "u";
  est_log_errors := true
|}.

(** A trained recording model. *)
Definition model : gp_record := {|
  rec_n_basis := 50; rec_method := "VC"; rec_joint := true;
  rec_heteroscedastic := true; rec_decorrelate := true; rec_seed := 87;
  rec_train := None
|}.

End Sample.

(** ** Notions the claims are stated with *)

(** [M] has [n] rows of [w] cells each. *)
Definition has_shape (M : matrix) (n w : nat) : Prop :=
  length M = n /\ Forall (fun row => length row = w) M.

(** What the loop body of [_prepare_data] leaves in columns [i] and
    [numbands + i] for the band at position [i]: the limit and [1.0] in the
    rows that are not detected, the magnitude and the (log of the) error in
    the others. *)
Definition band_encoded (np_log : float -> float) (data_dict : table) (numbands : nat)
    (nondet_val : float) (logflag : bool) (i : nat) (band eband : string) (lim : float)
    (M : matrix) : Prop :=
  exists col ecol,
    data_dict !! band = Some col /\ data_dict !! eband = Some ecol
    /\ length col = length M
    /\ forall r m, col !! r = Some m ->
         if is_nondetect nondet_val m
         then cell M r i = Some lim /\ cell M r (numbands + i) = Some 1%float
         else cell M r i = Some m
              /\ forall e, ecol !! r = Some e ->
                   cell M r (numbands + i) = Some (if logflag then np_log e else e).

(** The floor of a finite float. *)
Definition floor_of_float (x : float) : option Z :=
  match Prim2SF x with
  | S754_zero _ => Some 0
  | S754_finite s m e => Some (Z.shiftl (if s then Z.neg m else Z.pos m) e)
  | _ => None
  end.

(** The number of rows a mask selects. *)
Definition count_true (mask : list bool) : nat := length (filter Is_true mask).

(** The mask over [n] rows that selects the rows listed in [idx]. *)
Definition mask_of (n : nat) (idx : list nat) : list bool :=
  (fun i => bool_decide (i ∈ idx)) <$> seq 0 n.

(** A training configuration with another bin width. *)
Definition with_csl_binwidth (w : float) (c : InformConfig) : InformConfig := {|
  hdf5_groupname := hdf5_groupname c;
  nondetect_val := nondetect_val c;
  mag_limits := mag_limits c;
  trainfrac := trainfrac c;
  seed := seed c;
  bands := bands c;
  err_bands := err_bands c;
  redshift_col := redshift_col c;
  gpz_method := gpz_method c;
  n_basis := n_basis c;
  learn_jointly := learn_jointly c;
  hetero_noise := hetero_noise c;
  csl_method := csl_method c;
  csl_binwidth := w;
  pca_decorrelate := pca_decorrelate c;
  max_iter := max_iter c;
  max_attempt := max_attempt c;
  log_errors := log_errors c
|}.


(** The columns a band position needs for the loop body of
    [_prepare_data] to run on a matrix of [n] rows: a magnitude column of
    [n] entries, and an error column of [n] entries or of one entry, which
    NumPy broadcasts. *)
Definition columns_fit (data_dict : table) (n : nat) (band eband : string) : Prop :=
  exists col ecol,
    data_dict !! band = Some col /\ length col = n
    /\ data_dict !! eband = Some ecol /\ (length ecol = n \/ length ecol = 1%nat).

(** The number of band positions the loop of [_prepare_data] visits:
    [zip] stops at the shortest of its three arguments. *)
Definition positions_visited (bands err_bands : list string)
    (maglims : list (string * float)) : nat :=
  length bands `min` (length err_bands `min` length maglims).

(** The binary64 [x] is exactly the integer [n]: with sign [s], mantissa
    [m] and exponent [e], [(-1)^s * m * 2^e = n], written without
    fractions. *)
Definition float_is_int (x : float) (n : Z) : Prop :=
  match Prim2SF x with
  | S754_zero _ => n = 0
  | S754_finite s m e =>
      (if s then Z.neg m else Z.pos m) * 2 ^ Z.max 0 e = n * 2 ^ Z.max 0 (- e)
  | _ => False
  end.

(** * Properties *)

(** ** The error monad *)

Lemma bind_Ok {A B} (m : result A) (k : A -> result B) (b : B) :
  m ≫= k = Ok b -> exists a, m = Ok a /\ k a = Ok b.
Proof. destruct m as [a|e]; simpl; [eauto | discriminate]. Qed.

Lemma getitem_Ok {V} (d : gmap string V) (k : string) (v : V) :
  getitem d k = Ok v <-> d !! k = Some v.
Proof. unfold getitem. destruct (d !! k); split; congruence. Qed.

Lemma list_getitem_Ok {A} (l : list A) (i : nat) (v : A) :
  list_getitem l i = Ok v <-> l !! i = Some v.
Proof. unfold list_getitem. destruct (l !! i); split; congruence. Qed.

(** Splits a successful sequence of binds into its successful steps. *)
Ltac ok_steps :=
  repeat match goal with
  | H : _ ≫= _ = Ok _ |- _ =>
      let a := fresh "a" in
      let Ha := fresh "Hstep" in
      apply bind_Ok in H; destruct H as (a & Ha & H)
  | H : Ok _ = Ok _ |- _ => injection H as H
  | H : Raise _ = Ok _ |- _ => discriminate H
  | H : getitem _ _ = Ok _ |- _ => apply getitem_Ok in H
  | H : list_getitem _ _ = Ok _ |- _ => apply list_getitem_Ok in H
  end.

(** ** Cells of a matrix under the column assignments *)

Lemma has_shape_empty uninit r c : has_shape (np.empty uninit r c) r c.
Proof.
  split; unfold np.empty.
  - by rewrite length_fmap, length_seq.
  - apply Forall_fmap, Forall_forall. intros i _. simpl.
    by rewrite length_fmap, length_seq.
Qed.

Lemma broadcast_to_Ok n col c :
  np.broadcast_to n col = Ok c ->
  length c = n /\ forall r x, col !! r = Some x -> (r < n)%nat -> c !! r = Some x.
Proof.
  unfold np.broadcast_to. case_decide as Hlen.
  - intros [= <-]. done.
  - destruct col as [|x [|? ?]]; try discriminate. intros [= <-].
    split; [by rewrite length_replicate|].
    intros [|r] y Hy Hr; simplify_eq/=.
    by apply lookup_replicate_2.
Qed.

Lemma set_col_Ok j col M M' n w :
  np.set_col j col M = Ok M' -> has_shape M n w -> (j < w)%nat ->
  has_shape M' n w
  /\ (forall r c, c <> j -> cell M' r c = cell M r c)
  /\ (forall r x, col !! r = Some x -> (r < n)%nat -> cell M' r j = Some x).
Proof.
  unfold np.set_col. intros H [Hn Hw] Hj. ok_steps. subst M'.
  apply broadcast_to_Ok in Hstep as [Hlen Hc].
  split; [split|split].
  - rewrite length_zip_with; lia.
  - apply Forall_forall. intros row [row0 [x (-> & Hrow0 & _)]]%elem_of_zip_with.
    rewrite length_insert. by eapply Forall_forall in Hw.
  - intros r c Hne. unfold cell. rewrite lookup_zip_with.
    destruct (M !! r) as [row|] eqn:Hr; simpl; [|done].
    destruct (a !! r) as [x|] eqn:Hx; simpl.
    + by rewrite list_lookup_insert_ne.
    + apply lookup_ge_None in Hx. apply lookup_lt_Some in Hr. lia.
  - intros r x Hx Hr. unfold cell. rewrite lookup_zip_with.
    destruct (lookup_lt_is_Some_2 M r) as [row Hrow]; [lia|].
    rewrite Hrow, (Hc r x Hx) by lia. simpl.
    apply list_lookup_insert_eq.
    eapply Forall_forall in Hw; [|by eapply list_elem_of_lookup_2]. simpl in Hw. lia.
Qed.

Lemma set_col_where_Ok j mask v M M' n w :
  np.set_col_where j mask v M = Ok M' -> has_shape M n w -> (j < w)%nat ->
  has_shape M' n w
  /\ length mask = n
  /\ (forall r c, c <> j -> cell M' r c = cell M r c)
  /\ (forall r, mask !! r = Some true -> cell M' r j = Some v)
  /\ (forall r, mask !! r = Some false -> cell M' r j = cell M r j).
Proof.
  unfold np.set_col_where. case_decide as Hlen; [|discriminate].
  intros [= <-] [Hn Hw] Hj. split; [split|split; [lia|split; [|split]]].
  - rewrite length_zip_with; lia.
  - apply Forall_forall. intros row [row0 [b (-> & Hrow0 & _)]]%elem_of_zip_with.
    eapply Forall_forall in Hw; [|done]. simpl in Hw.
    destruct b; by rewrite ?length_insert.
  - intros r c Hne. unfold cell. rewrite lookup_zip_with.
    destruct (M !! r) as [row|] eqn:Hr; simpl; [|done].
    destruct (mask !! r) as [[|]|] eqn:Hx; simpl; [by rewrite list_lookup_insert_ne|done|].
    apply lookup_ge_None in Hx. apply lookup_lt_Some in Hr. lia.
  - intros r Hr. unfold cell. rewrite lookup_zip_with, Hr.
    destruct (lookup_lt_is_Some_2 M r) as [row Hrow].
    { apply lookup_lt_Some in Hr. lia. }
    rewrite Hrow. simpl. apply list_lookup_insert_eq.
    eapply Forall_forall in Hw; [|by eapply list_elem_of_lookup_2]. simpl in Hw. lia.
  - intros r Hr. unfold cell. rewrite lookup_zip_with, Hr.
    by destruct (M !! r).
Qed.

(** ** [_prepare_data], band by band *)

Section prepare_data_facts.

Variable np_log : float -> float.
Variable uninit : nat -> nat -> float.
Variable data_dict : table.
Variable numbands : nat.
Variable nondet_val : float.
Variable logflag : bool.

Local Abbreviation band_encoded := (band_encoded np_log data_dict numbands nondet_val logflag).

Lemma band_encoded_ext i band eband lim M M' :
  length M' = length M ->
  (forall r, cell M' r i = cell M r i) ->
  (forall r, cell M' r (numbands + i) = cell M r (numbands + i)) ->
  band_encoded i band eband lim M -> band_encoded i band eband lim M'.
Proof.
  intros Hlen Hi Hni (col & ecol & Hc & He & Hl & Hcells).
  exists col, ecol. repeat split; [done|done|congruence|].
  intros r m Hm. specialize (Hcells r m Hm). rewrite Hi, Hni. done.
Qed.

Lemma prepare_band_Ok i band eband lim M M' n w :
  prepare_band np_log data_dict numbands nondet_val logflag i band eband lim M = Ok M' ->
  has_shape M n w -> (i < numbands)%nat -> (numbands + i < w)%nat ->
  has_shape M' n w
  /\ (forall r c, c <> i -> c <> (numbands + i)%nat -> cell M' r c = cell M r c)
  /\ band_encoded i band eband lim M'.
Proof.
  unfold prepare_band. intros H Hs Hi Hni. ok_steps.
  rename a into col, a0 into M1, a1 into M2, a2 into ecol, a3 into M3.
  apply set_col_Ok with (n := n) (w := w) in Hstep0 as (Hs1 & Hoth1 & Hcol1); [|done|lia].
  apply set_col_where_Ok with (n := n) (w := w) in Hstep1
    as (Hs2 & Hmask & Hoth2 & Htrue2 & Hfalse2); [|done|lia].
  assert (Hs3 : has_shape M3 n w
                /\ (forall r c, c <> (numbands + i)%nat -> cell M3 r c = cell M2 r c)
                /\ (forall r e, ecol !! r = Some e -> (r < n)%nat ->
                      cell M3 r (numbands + i) = Some (if logflag then np_log e else e))).
  { destruct logflag.
    - apply set_col_Ok with (n := n) (w := w) in Hstep3 as (? & ? & Hc); [|done|lia].
      split; [done|split; [done|]]. intros r e He Hr. apply Hc; [|done].
      by rewrite list_lookup_fmap, He.
    - apply set_col_Ok with (n := n) (w := w) in Hstep3 as (? & ? & Hc); [|done|lia].
      done. }
  destruct Hs3 as (Hs3 & Hoth3 & Hcol3).
  apply set_col_where_Ok with (n := n) (w := w) in H
    as (Hs4 & _ & Hoth4 & Htrue4 & Hfalse4); [|done|lia].
  rewrite length_fmap in Hmask.
  split; [done|split].
  - intros r c Hc1 Hc2.
    rewrite Hoth4, Hoth3, Hoth2, Hoth1 by done. done.
  - exists col, ecol. repeat split; [done|done|destruct Hs4; lia|].
    intros r m Hm.
    assert (Hr : (r < n)%nat) by (apply lookup_lt_Some in Hm; lia).
    assert (Hmk : (is_nondetect nondet_val <$> col) !! r
                  = Some (is_nondetect nondet_val m))
      by (by rewrite list_lookup_fmap, Hm).
    destruct (is_nondetect nondet_val m).
    + split; [|by apply Htrue4].
      rewrite Hoth4, Hoth3 by lia. by apply Htrue2.
    + split.
      * rewrite Hoth4, Hoth3 by lia. rewrite (Hfalse2 r Hmk). by apply Hcol1.
      * intros e He. rewrite (Hfalse4 r Hmk). by apply Hcol3.
Qed.

Lemma prepare_loop_Ok items : forall i M M' n w,
  prepare_loop np_log data_dict numbands nondet_val logflag items i M = Ok M' ->
  has_shape M n w -> (i + length items <= numbands)%nat -> (2 * numbands <= w)%nat ->
  has_shape M' n w
  /\ (forall r c, (c < i \/ numbands <= c < numbands + i)%nat -> cell M' r c = cell M r c)
  /\ (forall k band eband lim, items !! k = Some (band, (eband, lim)) ->
        band_encoded (i + k) band eband lim M').
Proof.
  induction items as [|[band [eband lim]] items IH]; intros i M M' n w H Hs Hlen Hw.
  - simpl in H. ok_steps. subst. repeat split; try apply Hs; try done.
  - simpl in H, Hlen. ok_steps. rename a into M1.
    apply prepare_band_Ok with (n := n) (w := w) in Hstep
      as (Hs1 & Hoth1 & Henc); [|done|lia|lia].
    apply IH with (n := n) (w := w) in H as (Hs' & Hoth' & Hencs); [|done|lia|lia].
    split; [done|split].
    + intros r c Hc. rewrite Hoth' by lia. apply Hoth1; lia.
    + intros [|k] band' eband' lim' Hk; simpl in Hk.
      * injection Hk as <- <- <-. rewrite Nat.add_0_r.
        eapply band_encoded_ext; [| | |exact Henc].
        -- destruct Hs', Hs1. lia.
        -- intros r. apply Hoth'. lia.
        -- intros r. apply Hoth'. lia.
      * replace (i + S k)%nat with (S i + k)%nat by lia. by eapply Hencs.
Qed.

(** Every position the loop reaches is encoded in the result. *)
Lemma prepare_data_encoded bands err_bands maglims M i band eband lim :
  numbands = length bands ->
  _prepare_data np_log uninit data_dict bands err_bands nondet_val maglims logflag = Ok M ->
  bands !! i = Some band -> err_bands !! i = Some eband ->
  maglims.*2 !! i = Some lim ->
  band_encoded i band eband lim M.
Proof.
  intros Hnb H Hb He Hl. unfold _prepare_data in H. rewrite <- Hnb in H. ok_steps.
  eapply prepare_loop_Ok in H as (_ & _ & Henc).
  - apply (Henc i band eband lim).
    apply lookup_zip_with_Some. exists band, (eband, lim).
    split; [done|split; [done|]].
    apply lookup_zip_with_Some. by exists eband, lim.
  - apply has_shape_empty.
  - rewrite length_zip_with. simpl. lia.
  - lia.
Qed.

End prepare_data_facts.

(** ** Claims about [_prepare_data] *)

Lemma dict_get_lookup (maglims : list (string * float)) i key lim :
  NoDup maglims.*1 -> maglims !! i = Some (key, lim) -> dict_get maglims key = Some lim.
Proof.
  revert i. induction maglims as [|[k v] rest IH]; intros i Hnd Hi; [done|].
  simpl in *. apply NoDup_cons in Hnd as [Hk Hnd].
  destruct i as [|i]; simpl in Hi.
  - injection Hi as -> ->. by rewrite decide_True.
  - rewrite decide_False; [by eapply IH|].
    intros ->. apply Hk. apply list_elem_of_fmap. exists (key, lim).
    split; [done|]. by eapply list_elem_of_lookup_2.
Qed.

Section prepare_data_claims.

Variable np_log : float -> float.
Variable uninit : nat -> nat -> float.

(** C3, as amended: when [_prepare_data] returns a matrix, every row [r]
    whose magnitude in a band position [i] the loop reaches is close to the
    non-detection value or is NaN has [1.0] in column [B + i], whatever the
    raw error, the log flag and the mag-limits dict; and when the dict
    lists band [i] as its [i]-th key, the row has that band's configured
    limit in column [i]. *)
Theorem nondetect_substitution (data_dict : table) (bands err_bands : list string)
    (nondet_val : float) (maglims : list (string * float)) (logflag : bool)
    (M : matrix) (i r : nat) (band eband : string) (mags : list float) (m : float) :
  _prepare_data np_log uninit data_dict bands err_bands nondet_val maglims logflag = Ok M ->
  bands !! i = Some band -> err_bands !! i = Some eband -> (i < length maglims)%nat ->
  data_dict !! band = Some mags -> mags !! r = Some m ->
  is_nondetect nondet_val m = true ->
  cell M r (length bands + i) = Some 1%float
  /\ (NoDup maglims.*1 -> maglims.*1 !! i = Some band ->
      exists lim, dict_get maglims band = Some lim /\ cell M r i = Some lim).
Proof.
  intros H Hb He Hi Hmags Hm Hmask.
  destruct (lookup_lt_is_Some_2 maglims i Hi) as [[key lim] Hitem].
  eapply prepare_data_encoded with (i := i) (lim := lim) in H;
    [|done|done|done|by rewrite list_lookup_fmap, Hitem].
  destruct H as (col & ecol & Hc & _ & _ & Hcells).
  assert (col = mags) as -> by congruence.
  specialize (Hcells r m Hm). rewrite Hmask in Hcells. destruct Hcells as [Hlim Hone].
  split; [done|]. intros Hnd Hkey.
  rewrite list_lookup_fmap, Hitem in Hkey. injection Hkey as ->.
  exists lim. split; [by eapply dict_get_lookup|done].
Qed.

(** C6: when [_prepare_data] returns a matrix, every row [r] whose
    magnitude in band [i] is neither close to the non-detection value nor
    NaN has, in column [B + i], the natural log of the raw error when the
    log flag is set and the raw error itself when it is not. *)
Theorem log_transform (data_dict : table) (bands err_bands : list string)
    (nondet_val : float) (maglims : list (string * float)) (logflag : bool)
    (M : matrix) (i r : nat) (band eband : string) (mags errs : list float)
    (m e : float) :
  _prepare_data np_log uninit data_dict bands err_bands nondet_val maglims logflag = Ok M ->
  bands !! i = Some band -> err_bands !! i = Some eband ->
  (i < length maglims)%nat ->
  data_dict !! band = Some mags -> mags !! r = Some m ->
  is_nondetect nondet_val m = false ->
  data_dict !! eband = Some errs -> errs !! r = Some e ->
  cell M r (length bands + i) = Some (if logflag then np_log e else e).
Proof.
  intros H Hb He Hi Hmags Hm Hmask Herrs Hr.
  destruct (lookup_lt_is_Some_2 maglims.*2 i) as [lim Hlim];
    [by rewrite length_fmap|].
  eapply prepare_data_encoded with (i := i) (lim := lim) in H; [|done..].
  destruct H as (col & ecol & Hc & Hec & _ & Hcells).
  assert (col = mags) as -> by congruence.
  assert (ecol = errs) as -> by congruence.
  specialize (Hcells r m Hm). rewrite Hmask in Hcells.
  destruct Hcells as [_ Hcells]. by apply Hcells.
Qed.

(** C10, as amended: the limit written into column [i] of a masked row is
    the value at position [i] of the mag-limits dict, that is, the limit
    configured for the dict's [i]-th key, whatever band [i] is called.  It
    is band [i]'s own limit when that key is band [i]; and when the dict
    gives different bands different limits, it is band [i]'s limit only
    then: under any other key at position [i] the call still returns a
    matrix, with another band's limit in the cell. *)
Theorem limit_is_positional (data_dict : table) (bands err_bands : list string)
    (nondet_val : float) (maglims : list (string * float)) (logflag : bool)
    (M : matrix) (i r : nat) (band eband key : string) (mags : list float)
    (m lim : float) :
  _prepare_data np_log uninit data_dict bands err_bands nondet_val maglims logflag = Ok M ->
  bands !! i = Some band -> err_bands !! i = Some eband ->
  NoDup maglims.*1 -> maglims !! i = Some (key, lim) ->
  data_dict !! band = Some mags -> mags !! r = Some m ->
  is_nondetect nondet_val m = true ->
  cell M r i = maglims.*2 !! i
  /\ cell M r i = dict_get maglims key
  /\ (key = band -> cell M r i = dict_get maglims band)
  /\ (NoDup maglims.*2 -> key <> band -> is_Some (dict_get maglims band) ->
      cell M r i <> dict_get maglims band).
Proof.
  intros H Hb He Hnd Hi Hmags Hm Hmask.
  assert (Hv : maglims.*2 !! i = Some lim) by (by rewrite list_lookup_fmap, Hi).
  assert (Hcell : cell M r i = Some lim).
  { eapply prepare_data_encoded with (i := i) (lim := lim) in H; [|done..].
    destruct H as (col & ecol & Hc & _ & _ & Hcells).
    assert (col = mags) as -> by congruence.
    specialize (Hcells r m Hm). rewrite Hmask in Hcells. apply Hcells. }
  assert (Hkey : dict_get maglims key = Some lim) by (by eapply dict_get_lookup).
  split; [congruence|split; [congruence|split]].
  - intros <-. congruence.
  - intros Hinj Hne [lim' Hlim'] Heq. rewrite Hcell, Hlim' in Heq.
    injection Heq as <-. apply Hne.
    clear -Hnd Hinj Hi Hlim'.
    revert i Hi. induction maglims as [|[k v] rest IH]; intros i Hi; [done|].
    simpl in *. apply NoDup_cons in Hnd as [Hk Hnd].
    apply NoDup_cons in Hinj as [Hv Hinj].
    case_decide as Hkb.
    + injection Hlim' as ->. destruct i as [|i]; simpl in Hi; [congruence|].
      exfalso. apply Hv. apply list_elem_of_fmap. exists (key, lim).
      split; [done|]. by eapply list_elem_of_lookup_2.
    + destruct i as [|i]; simpl in Hi.
      * injection Hi as -> ->. exfalso. apply Hv.
        clear -Hlim'. induction rest as [|[k' v'] rest IH]; [done|].
        simpl in *. case_decide; [injection Hlim' as ->; left|right; auto].
      * by eapply IH.
Qed.

End prepare_data_claims.

(** C3 as stated fails: with the limits keyed [g] first, the undetected
    [u] magnitude of source 1 is replaced by 25, the limit of [g], while
    the limit configured for [u] is 27.5. *)
Lemma nondetect_substitution_by_key_fails :
  exists M,
    _prepare_data Sample.log Sample.uninit Sample.photometry Sample.band_names
      Sample.err_names 99%float Sample.swapped_limits true = Ok M
    /\ Sample.band_names !! 0%nat = Some "u"
    /\ Sample.photometry !! "u" = Some [20.5; 99; 21.25]%float
    /\ is_nondetect 99 99 = true
    /\ dict_get Sample.swapped_limits "u" = Some 27.5%float
    /\ cell M 1 0 = Some 25%float
    /\ cell M 1 0 <> dict_get Sample.swapped_limits "u".
Proof.
  eexists. split; [vm_compute; reflexivity|].
  repeat split. vm_compute. discriminate.
Qed.

(** C3 as amended, on the sample table: source 1, not detected in [u], gets
    the error [1.0] and, the limits being keyed in band order, the limit of
    [u]. *)
Lemma nondetect_substitution_witness :
  exists M,
    _prepare_data Sample.log Sample.uninit Sample.photometry Sample.band_names
      Sample.err_names 99%float Sample.limits true = Ok M
    /\ cell M 1 (length Sample.band_names + 0) = Some 1%float
    /\ exists lim, dict_get Sample.limits "u" = Some lim /\ cell M 1 0 = Some lim.
Proof.
  eexists. split; [vm_compute; reflexivity|].
  match goal with
  | |- cell ?M _ _ = _ /\ _ =>
      destruct (nondetect_substitution Sample.log Sample.uninit Sample.photometry
                  Sample.band_names Sample.err_names 99%float Sample.limits true M 0 1
                  "u" "u_err" [20.5; 99; 21.25]%float 99%float) as [Hone Hlim]
  end.
  - vm_compute. reflexivity.
  - reflexivity.
  - reflexivity.
  - vm_compute. lia.
  - vm_compute. reflexivity.
  - reflexivity.
  - vm_compute. reflexivity.
  - split; [exact Hone|]. apply Hlim.
    + apply (bool_decide_unpack _). vm_compute. exact I.
    + reflexivity.
Defined.

(** C6 on the sample table: source 2 is detected in [u] and keeps the log
    of its [u] error. *)
Lemma log_transform_witness :
  exists M,
    _prepare_data Sample.log Sample.uninit Sample.photometry Sample.band_names
      Sample.err_names 99%float Sample.limits true = Ok M
    /\ cell M 2 (length Sample.band_names + 0) = Some (Sample.log 0.125).
Proof.
  eexists. split; [vm_compute; reflexivity|].
  apply (log_transform Sample.log Sample.uninit Sample.photometry Sample.band_names
           Sample.err_names 99%float Sample.limits true _ 0 2 "u" "u_err"
           [20.5; 99; 21.25]%float [0.5; 0.25; 0.125]%float 21.25%float 0.125%float).
  - vm_compute. reflexivity.
  - reflexivity.
  - reflexivity.
  - vm_compute. lia.
  - vm_compute. reflexivity.
  - reflexivity.
  - vm_compute. reflexivity.
  - vm_compute. reflexivity.
  - reflexivity.
Defined.

(** C10 as stated fails: with the limits keyed [g] first and both bands
    limited at 25, the key order does not match the band list, and the
    undetected [u] magnitude of source 1 is still replaced by the limit
    configured for [u]. *)
Lemma equal_limits_in_other_order :
  exists M,
    _prepare_data Sample.log Sample.uninit Sample.photometry Sample.band_names
      Sample.err_names 99%float [("g", 25%float); ("u", 25%float)] true = Ok M
    /\ Sample.band_names !! 0%nat = Some "u"
    /\ [("g", 25%float); ("u", 25%float)].*1 !! 0%nat = Some "g"
    /\ Sample.photometry !! "u" = Some [20.5; 99; 21.25]%float
    /\ is_nondetect 99 99 = true
    /\ dict_get [("g", 25%float); ("u", 25%float)] "u" = Some 25%float
    /\ cell M 1 0 = dict_get [("g", 25%float); ("u", 25%float)] "u".
Proof.
  eexists. split; [vm_compute; reflexivity|].
  repeat split.
Qed.

(** C10 as amended, on the sample table with the limits keyed [g] first:
    the limit written for [u] is the one configured for [g]. *)
Lemma limit_is_positional_witness :
  exists M,
    _prepare_data Sample.log Sample.uninit Sample.photometry Sample.band_names
      Sample.err_names 99%float Sample.swapped_limits true = Ok M
    /\ cell M 1 0 = Sample.swapped_limits.*2 !! 0%nat
    /\ cell M 1 0 = dict_get Sample.swapped_limits "g"
    /\ ("g" = "u" -> cell M 1 0 = dict_get Sample.swapped_limits "u")
    /\ (NoDup Sample.swapped_limits.*2 -> "g" <> "u" ->
        is_Some (dict_get Sample.swapped_limits "u") ->
        cell M 1 0 <> dict_get Sample.swapped_limits "u").
Proof.
  eexists. split; [vm_compute; reflexivity|].
  apply (limit_is_positional Sample.log Sample.uninit Sample.photometry Sample.band_names
           Sample.err_names 99%float Sample.swapped_limits true _ 0 1 "u" "u_err" "g"
           [20.5; 99; 21.25]%float 99%float 25%float).
  - vm_compute. reflexivity.
  - reflexivity.
  - reflexivity.
  - apply (bool_decide_unpack _). vm_compute. exact I.
  - reflexivity.
  - vm_compute. reflexivity.
  - reflexivity.
  - vm_compute. reflexivity.
Defined.

(** ** The masks of [split_masks] *)

Lemma slice_to_from {A} (k : Z) (l : list A) : slice_to k l ++ slice_from k l = l.
Proof. apply take_drop. Qed.

Lemma slice_bound_in_range (k : Z) (n : nat) :
  0 <= k <= Z.of_nat n -> slice_bound k n = Z.to_nat k.
Proof. unfold slice_bound. intros Hk. destruct (Z.ltb_spec k 0); lia. Qed.

Lemma set_true_Ok idx : forall mask,
  Forall (fun i => (i < length mask)%nat) idx ->
  exists mask', np.set_true mask idx = Ok mask'
    /\ length mask' = length mask
    /\ forall i b, mask !! i = Some b -> mask' !! i = Some (b || bool_decide (i ∈ idx)).
Proof.
  induction idx as [|j idx IH]; intros mask Hidx.
  - exists mask. split; [done|split; [done|]]. intros i b Hb.
    rewrite bool_decide_eq_false_2 by apply not_elem_of_nil. by rewrite orb_false_r.
  - apply Forall_cons in Hidx as [Hj Hidx]. simpl. rewrite decide_True by done.
    destruct (IH (<[j:=true]> mask)) as (mask' & Hset & Hlen & Hcells).
    { by rewrite length_insert. }
    exists mask'. split; [done|split; [by rewrite Hlen, length_insert|]].
    intros i b Hb. destruct (decide (i = j)) as [->|Hne].
    + rewrite (Hcells j true) by (by apply list_lookup_insert_eq).
      rewrite (bool_decide_eq_true_2 (j ∈ j :: idx)) by left.
      by rewrite orb_true_r.
    + rewrite (Hcells i b) by (by rewrite list_lookup_insert_ne).
      do 2 f_equal. apply bool_decide_ext. rewrite elem_of_cons. tauto.
Qed.

Lemma set_true_zeros n idx :
  Forall (fun i => (i < n)%nat) idx -> np.set_true (np.zeros n) idx = Ok (mask_of n idx).
Proof.
  intros Hidx. destruct (set_true_Ok idx (np.zeros n)) as (mask' & Hset & Hlen & Hcells).
  { unfold np.zeros. by rewrite length_replicate. }
  rewrite Hset. f_equal. unfold np.zeros in *. rewrite length_replicate in Hlen.
  apply list_eq. intros i. unfold mask_of. rewrite list_lookup_fmap.
  destruct (decide (i < n)%nat) as [Hi|Hi].
  - rewrite (Hcells i false) by (by apply lookup_replicate_2).
    by rewrite lookup_seq_lt.
  - rewrite lookup_seq_ge by lia. simpl. apply lookup_ge_None. lia.
Qed.

Lemma mask_of_lookup n idx i :
  (i < n)%nat -> mask_of n idx !! i = Some (bool_decide (i ∈ idx)).
Proof. intros Hi. unfold mask_of. by rewrite list_lookup_fmap, lookup_seq_lt. Qed.

Lemma mask_of_true n idx i :
  Forall (fun i => (i < n)%nat) idx -> mask_of n idx !! i = Some true <-> i ∈ idx.
Proof.
  intros Hidx. split.
  - intros Hi. assert (i < n)%nat as Hlt.
    { apply lookup_lt_Some in Hi. unfold mask_of in Hi.
      by rewrite length_fmap, length_seq in Hi. }
    rewrite mask_of_lookup in Hi by done. injection Hi as Hi.
    by apply bool_decide_eq_true in Hi.
  - intros Hi. rewrite mask_of_lookup.
    + f_equal. by apply bool_decide_eq_true.
    + eapply Forall_forall in Hidx; [|done]. done.
Qed.

Lemma length_mask_of n idx : length (mask_of n idx) = n.
Proof. unfold mask_of. by rewrite length_fmap, length_seq. Qed.

Lemma count_true_mask_of n idx :
  NoDup idx -> Forall (fun i => (i < n)%nat) idx -> count_true (mask_of n idx) = length idx.
Proof.
  intros Hnd Hidx. unfold count_true, mask_of.
  transitivity (length (filter (fun i => i ∈ idx) (seq 0 n))).
  - generalize (seq 0 n). intros l. induction l as [|x l IH]; [done|].
    rewrite fmap_cons, !filter_cons. simpl.
    destruct (decide (x ∈ idx)) as [Hx|Hx].
    + rewrite bool_decide_eq_true_2 by done. simpl. by rewrite IH.
    + rewrite bool_decide_eq_false_2 by done. simpl. by rewrite IH.
  - apply Permutation_length, NoDup_Permutation; [apply NoDup_filter, NoDup_seq|done|].
    intros x. rewrite list_elem_of_filter, elem_of_seq.
    split; [tauto|]. intros Hx. split; [done|].
    eapply Forall_forall in Hidx; [|done]. simpl in Hidx. lia.
Qed.

Section split_facts.

Variable rng : Type.
Variable np_random_permutation : rng -> nat -> list nat * rng.

(** The masks, when the two conversions succeed and the generator returns
    indices below [ngal]. *)
Lemma split_masks_Ok ngal trainfrac g nf k :
  float_of_int (Z.of_nat ngal) = Ok nf ->
  int_of_float (nf * trainfrac) = Ok k ->
  (np_random_permutation g ngal).1 ≡ₚ seq 0 ngal ->
  split_masks rng np_random_permutation ngal trainfrac g
  = Ok (mask_of ngal (slice_to k (np_random_permutation g ngal).1),
        mask_of ngal (slice_from k (np_random_permutation g ngal).1),
        (np_random_permutation g ngal).2).
Proof.
  intros Hnf Hk Hperm. unfold split_masks. rewrite Hnf. simpl. rewrite Hk. simpl.
  destruct (np_random_permutation g ngal) as [randvec g1]. simpl in *.
  assert (Hall : Forall (fun i => (i < ngal)%nat) randvec).
  { apply Forall_forall. intros i Hi. rewrite Hperm in Hi.
    apply elem_of_seq in Hi. lia. }
  rewrite <- (slice_to_from k randvec) in Hall. apply Forall_app in Hall as [Hto Hfrom].
  rewrite set_true_zeros by done. simpl. rewrite set_true_zeros by done. done.
Qed.

Lemma split_masks_inv ngal trainfrac g train val g' :
  split_masks rng np_random_permutation ngal trainfrac g = Ok (train, val, g') ->
  (np_random_permutation g ngal).1 ≡ₚ seq 0 ngal ->
  exists nf k,
    float_of_int (Z.of_nat ngal) = Ok nf /\ int_of_float (nf * trainfrac) = Ok k
    /\ train = mask_of ngal (slice_to k (np_random_permutation g ngal).1)
    /\ val = mask_of ngal (slice_from k (np_random_permutation g ngal).1)
    /\ g' = (np_random_permutation g ngal).2.
Proof.
  intros H Hperm. pose proof H as H'. unfold split_masks in H'.
  apply bind_Ok in H' as (nf & Hnf & H'). apply bind_Ok in H' as (k & Hk & _).
  rewrite (split_masks_Ok _ _ _ nf k) in H by done.
  injection H as <- <- <-. by exists nf, k.
Qed.

End split_facts.

(** ** Binary64 arithmetic of the split

    The facts about [float(N)], [float(N) * f] and [int] that the claims
    on the split need, from the specification of the primitive floats
    ([FloatAxioms]) and the rounding functions of [SpecFloat]. *)

Lemma digits2_pos_log2 (p : positive) : Z.pos (digits2_pos p) = Z.log2 (Z.pos p) + 1.
Proof.
  induction p as [p IH|p IH|]; simpl digits2_pos.
  - rewrite Pos2Z.inj_succ, IH. change (Z.pos p~1) with (2 * Z.pos p + 1).
    rewrite Z.log2_succ_double by lia. lia.
  - rewrite Pos2Z.inj_succ, IH. change (Z.pos p~0) with (2 * Z.pos p).
    rewrite Z.log2_double by lia. lia.
  - reflexivity.
Qed.

Lemma Zdigits2_log2 (m : Z) : 0 < m -> Zdigits2 m = Z.log2 m + 1.
Proof. destruct m as [|p|p]; try lia. intros _. apply digits2_pos_log2. Qed.

Lemma Zdigits2_mono (a b : Z) : 0 < a <= b -> Zdigits2 a <= Zdigits2 b.
Proof.
  intros H. rewrite !Zdigits2_log2 by lia.
  pose proof (Z.log2_le_mono a b). lia.
Qed.

Lemma Zdigits2_mul_pow2 (a j : Z) : 0 < a -> 0 <= j -> Zdigits2 (a * 2 ^ j) = Zdigits2 a + j.
Proof.
  intros Ha Hj. rewrite !Zdigits2_log2; [|lia|].
  - rewrite Z.log2_mul_pow2 by lia. lia.
  - apply Z.mul_pos_pos; [lia|]. apply Z.pow_pos_nonneg; lia.
Qed.

Lemma fexp_mono (a b : Z) : a <= b -> fexp prec emax a <= fexp prec emax b.
Proof. unfold fexp. lia. Qed.

(** [shr_1] halves a non-negative mantissa, rounding down. *)
Lemma shr_1_half (mrs : shr_record) :
  0 <= shr_m mrs -> 0 <= shr_m (shr_1 mrs) /\ 2 * shr_m (shr_1 mrs) <= shr_m mrs.
Proof.
  destruct mrs as [m r s]. simpl. intros Hm.
  destruct m as [|[p|p|]|p]; simpl; lia.
Qed.

Lemma iter_shr_1 (p : positive) : forall mrs,
  0 <= shr_m mrs ->
  0 <= shr_m (SpecFloat.iter_pos shr_1 p mrs)
  /\ shr_m (SpecFloat.iter_pos shr_1 p mrs) * 2 ^ Z.pos p <= shr_m mrs.
Proof.
  induction p as [p IH|p IH|]; intros mrs Hm; simpl SpecFloat.iter_pos.
  - destruct (shr_1_half mrs Hm) as [H0 H1].
    destruct (IH _ H0) as [H2 H3]. destruct (IH _ H2) as [H4 H5].
    split; [done|].
    replace (Z.pos p~1) with (Z.pos p + Z.pos p + 1) by lia.
    rewrite !Z.pow_add_r by lia. change (2 ^ 1) with 2.
    assert (0 < 2 ^ Z.pos p) by (apply Z.pow_pos_nonneg; lia). nia.
  - destruct (IH _ Hm) as [H2 H3]. destruct (IH _ H2) as [H4 H5].
    split; [done|].
    replace (Z.pos p~0) with (Z.pos p + Z.pos p) by lia.
    rewrite !Z.pow_add_r by lia.
    assert (0 < 2 ^ Z.pos p) by (apply Z.pow_pos_nonneg; lia). nia.
  - destruct (shr_1_half mrs Hm). split; [done|]. change (2 ^ 1) with 2. lia.
Qed.

(** A right shift to the format's exponent does not increase the value. *)
Lemma shr_fexp_le (m e : Z) (l : location) (mrs : shr_record) (e' : Z) :
  0 <= m -> shr_fexp prec emax m e l = (mrs, e') ->
  0 <= shr_m mrs /\ e <= e' /\ shr_m mrs * 2 ^ (e' - e) <= m
  /\ (e' = e \/ e' = fexp prec emax (Zdigits2 m + e)).
Proof.
  intros Hm. unfold shr_fexp, shr.
  assert (Hrec : shr_m (shr_record_of_loc m l) = m) by (by destruct l as [|[]]).
  destruct (fexp prec emax (Zdigits2 m + e) - e) as [|p|p] eqn:Hn.
  - intros [= <- <-]. rewrite Hrec, Z.sub_diag. simpl. lia.
  - intros [= <- <-]. destruct (iter_shr_1 p (shr_record_of_loc m l)) as [H0 H1]; [lia|].
    rewrite Hrec in H1. replace (e + Z.pos p - e) with (Z.pos p) by lia.
    repeat split; try lia.
  - intros [= <- <-]. rewrite Hrec, Z.sub_diag. simpl. lia.
Qed.

Lemma round_nearest_even_le (m : Z) (l : location) :
  m <= round_nearest_even m l <= m + 1.
Proof. unfold round_nearest_even. destruct l as [|[]]; try lia. destruct (Z.even m); lia. Qed.

(** Rounding a positive value [M * 2^E] that lies below a number
    [A * 2^eA] of the format gives zero or a finite number that is not
    above [A * 2^eA]. *)
Lemma binary_round_aux_below (M E A eA : Z) :
  0 < M -> 0 < A -> E <= eA -> M < A * 2 ^ (eA - E) ->
  fexp prec emax (Zdigits2 A + eA) = eA -> eA <= emax - prec ->
  binary_round_aux prec emax false M E loc_Exact = S754_zero false
  \/ exists m e,
       binary_round_aux prec emax false M E loc_Exact = S754_finite false m e
       /\ E <= e /\ Z.pos m * 2 ^ (e - E) <= A * 2 ^ (eA - E).
Proof.
  intros HM HA HE Hlt Hcan Hmax. unfold binary_round_aux.
  destruct (shr_fexp prec emax M E loc_Exact) as [mrs' e'] eqn:H1.
  apply shr_fexp_le in H1 as (Hm' & HEe' & Hle' & He'); [|lia].
  assert (0 < 2 ^ (eA - E)) as Hp1 by (apply Z.pow_pos_nonneg; lia).
  assert (e' <= eA) as He'A.
  { destruct He' as [->| ->]; [done|]. rewrite <- Hcan. apply fexp_mono.
    pose proof (Zdigits2_mono M (A * 2 ^ (eA - E))) as Hd.
    rewrite Zdigits2_mul_pow2 in Hd by lia. lia. }
  set (m' := shr_m mrs') in *.
  pose proof (round_nearest_even_le m' (loc_of_shr_record mrs')) as Hmr.
  set (mr := round_nearest_even m' (loc_of_shr_record mrs')) in *.
  assert (0 < 2 ^ (e' - E)) as Hp2 by (apply Z.pow_pos_nonneg; lia).
  assert (0 < 2 ^ (eA - e')) as Hp3 by (apply Z.pow_pos_nonneg; lia).
  assert (2 ^ (eA - E) = 2 ^ (eA - e') * 2 ^ (e' - E)) as Hsplit.
  { rewrite <- Z.pow_add_r by lia. f_equal. lia. }
  assert (mr <= A * 2 ^ (eA - e')) as Hmrle by (rewrite Hsplit in Hlt; nia).
  destruct (shr_fexp prec emax mr e' loc_Exact) as [mrs'' e''] eqn:H2.
  apply shr_fexp_le in H2 as (Hm'' & He'e'' & Hle'' & He''); [|lia].
  assert (0 < 2 ^ (e'' - e')) as Hp4 by (apply Z.pow_pos_nonneg; lia).
  destruct (shr_m mrs'') as [|m|m] eqn:Hm; [by left| |lia].
  right. exists m, e''.
  assert (0 < mr) as Hmrpos by nia.
  assert (e'' <= eA) as He''A.
  { destruct He'' as [->| ->]; [done|]. rewrite <- Hcan. apply fexp_mono.
    pose proof (Zdigits2_mono mr (A * 2 ^ (eA - e'))) as Hd.
    rewrite Zdigits2_mul_pow2 in Hd by lia. lia. }
  rewrite (proj2 (Z.leb_le _ _)) by lia.
  split; [done|split; [lia|]].
  replace (e'' - E) with ((e'' - e') + (e' - E)) by lia.
  rewrite Z.pow_add_r, Hsplit by lia. nia.
Qed.

Lemma pos_compare_cont_lt (m c : positive) :
  PosDef.Pos.compare_cont Eq m c = Lt -> Z.pos m < Z.pos c.
Proof. intros H. change ((Z.pos m ?= Z.pos c) = Lt). exact H. Qed.

(** A float strictly between 0 and 1. *)
Lemma unit_fraction_spec (f : float) :
  PrimFloat.ltb 0 f = true -> PrimFloat.ltb f 1 = true ->
  exists my ey, Prim2SF f = S754_finite false my ey /\ ey < 0 /\ Z.pos my < 2 ^ (- ey).
Proof.
  rewrite !ltb_spec.
  replace (Prim2SF 0) with (S754_zero false) by (symmetry; vm_compute; reflexivity).
  replace (Prim2SF 1) with (S754_finite false 4503599627370496 (-52))
    by (symmetry; vm_compute; reflexivity).
  pose proof (Prim2SF_valid f) as Hvalid.
  destruct (Prim2SF f) as [s|s| |s m e]; [discriminate 1| |discriminate 1|].
  - destruct s; [discriminate 1|discriminate 2].
  - unfold SFltb, SFcompare. destruct s; [discriminate|]. intros _ Hlt.
    exists m, e. split; [done|].
    simpl in Hvalid. unfold bounded, canonical_mantissa in Hvalid.
    apply andb_prop in Hvalid as [Hcan _]. apply Z.eqb_eq in Hcan.
    assert (Z.pos m < 2 ^ 53) as Hm.
    { apply Z.log2_lt_pow2; [lia|]. rewrite digits2_pos_log2 in Hcan.
      unfold fexp, prec in Hcan. lia. }
    destruct (Z.compare_spec e (-52)) as [->|He|He]; [| |discriminate Hlt].
    + split; [lia|]. change (2 ^ (- (-52))) with (Z.pos 4503599627370496).
      apply pos_compare_cont_lt.
      destruct (PosDef.Pos.compare_cont Eq m 4503599627370496);
        [discriminate Hlt|reflexivity|discriminate Hlt].
    + split; [lia|]. eapply Z.lt_le_trans; [exact Hm|].
      apply Z.pow_le_mono_r; lia.
Qed.

Lemma shiftl_scaled (m e L : Z) :
  L <= e -> L <= 0 -> Z.shiftl m e = (m * 2 ^ (e - L)) / 2 ^ (- L).
Proof.
  intros HLe HL.
  assert (0 < 2 ^ (- L)) by (apply Z.pow_pos_nonneg; lia).
  destruct (Z.le_gt_cases 0 e) as [He|He].
  - rewrite Z.shiftl_mul_pow2 by done.
    replace (e - L) with (e + - L) by lia. rewrite Z.pow_add_r by lia.
    rewrite Z.mul_assoc, Z.div_mul by lia. done.
  - rewrite Z.shiftl_div_pow2 by lia.
    replace (- L) with (- e + (e - L)) by lia. rewrite Z.pow_add_r by lia.
    assert (0 < 2 ^ (e - L)) by (apply Z.pow_pos_nonneg; lia).
    assert (0 < 2 ^ (- e)) by (apply Z.pow_pos_nonneg; lia).
    rewrite Z.div_mul_cancel_r by lia. done.
Qed.

(** The product of [float(n)], for a row count [n] that binary64
    represents, with a fraction strictly between 0 and 1 is a finite float
    that is not negative, and its integer part is at most [n]. *)
Lemma fraction_of_rows (n : Z) (nf f : float) :
  0 <= n -> float_of_int n = Ok nf -> int_of_float nf = Ok n ->
  PrimFloat.ltb 0 f = true -> PrimFloat.ltb f 1 = true ->
  exists k, int_of_float (nf * f) = Ok k /\ floor_of_float (nf * f) = Some k
            /\ 0 <= k <= n.
Proof.
  intros Hn Hnf Hint H0 H1.
  destruct (unit_fraction_spec f H0 H1) as (my & ey & Hf & Hey & Hmy).
  unfold int_of_float, floor_of_float. rewrite mul_spec, Hf.
  destruct (Z.eq_dec n 0) as [->|Hn0].
  - unfold float_of_int in Hnf. cbn in Hnf. injection Hnf as <-.
    replace (Prim2SF zero) with (S754_zero false) by (symmetry; vm_compute; reflexivity).
    simpl. exists 0. repeat split; lia.
  - unfold int_of_float in Hint. pose proof (Prim2SF_valid nf) as Hvalid.
    destruct (Prim2SF nf) as [s|s| |s mx ex]; [|discriminate Hint|discriminate Hint|].
    { injection Hint as <-. lia. }
    assert (s = false) as ->.
    { destruct s; [|done]. injection Hint as <-.
      pose proof (Z.shiftl_nonneg (Z.pos mx) ex). lia. }
    injection Hint as Hint.
    simpl in Hvalid. unfold bounded, canonical_mantissa in Hvalid.
    apply andb_prop in Hvalid as [Hcan Hmax]. apply Z.eqb_eq in Hcan.
    apply Z.leb_le in Hmax.
    unfold SF64mul, SFmul. change (xorb false false) with false.
    assert (0 < 2 ^ (- ey)) as Hp by (apply Z.pow_pos_nonneg; lia).
    assert (Z.pos (mx * my) < Z.pos mx * 2 ^ (ex - (ex + ey))) as Hprod.
    { replace (ex - (ex + ey)) with (- ey) by lia. rewrite Pos2Z.inj_mul. nia. }
    destruct (binary_round_aux_below (Z.pos (mx * my)) (ex + ey) (Z.pos mx) ex
                ltac:(lia) ltac:(lia) ltac:(lia) Hprod Hcan Hmax)
      as [->|(m & e & -> & He & Hle)].
    { exists 0. repeat split; lia. }
    exists (Z.shiftl (Z.pos m) e). split; [done|split; [done|]].
    split; [apply Z.shiftl_nonneg; lia|]. rewrite <- Hint.
    set (L := Z.min (ex + ey) 0).
    rewrite (shiftl_scaled (Z.pos m) e L), (shiftl_scaled (Z.pos mx) ex L) by lia.
    apply Z.div_le_mono; [apply Z.pow_pos_nonneg; lia|].
    replace (e - L) with ((e - (ex + ey)) + (ex + ey - L)) by lia.
    replace (ex - L) with ((ex - (ex + ey)) + (ex + ey - L)) by lia.
    rewrite !Z.pow_add_r by lia.
    assert (0 < 2 ^ (ex + ey - L)) by (apply Z.pow_pos_nonneg; lia).
    nia.
Qed.

Lemma pos_iter_xO (m p : positive) : Z.pos (Pos.iter xO m p) = Z.pos m * 2 ^ Z.pos p.
Proof.
  revert m. induction p as [|p IH] using Pos.peano_ind; intros m.
  - simpl. lia.
  - rewrite Pos.iter_succ, Pos2Z.inj_succ, Z.pow_succ_r by lia.
    rewrite Pos2Z.inj_xO, IH. lia.
Qed.

(** [float(n)] is exact below [2^53]. *)
Lemma float_of_int_value (n : Z) :
  0 <= n < 2 ^ 53 ->
  exists nf, float_of_int n = Ok nf /\ int_of_float nf = Ok n /\ float_is_int nf n.
Proof.
  intros [Hn0 Hn]. destruct n as [|m|m]; [|clear Hn0|lia].
  { exists zero. split; [reflexivity|split; [reflexivity|]]. unfold float_is_int.
    by replace (Prim2SF zero) with (S754_zero false) by (symmetry; vm_compute; reflexivity). }
  unfold float_of_int. cbn [binary_normalize]. unfold binary_round.
  set (d := Z.pos (digits2_pos m)).
  assert (1 <= d <= 53) as Hd.
  { unfold d. rewrite digits2_pos_log2.
    pose proof (Z.log2_nonneg (Z.pos m)).
    pose proof (proj1 (Z.log2_lt_pow2 (Z.pos m) 53 ltac:(lia)) Hn). lia. }
  assert (fexp prec emax (d + 0) = d - 53) as Hfexp.
  { unfold fexp, SpecFloat.emin, prec, emax. lia. }
  rewrite Hfexp.
  assert (exists mz, shl_align m 0 (d - 53) = (mz, d - 53)
                     /\ Z.pos mz = Z.pos m * 2 ^ (53 - d)) as (mz & -> & Hmz).
  { unfold shl_align. destruct (d - 53 - 0) as [|p|p] eqn:Hp; [|lia|].
    - exists m. replace (d - 53) with 0 by lia. split; [done|].
      replace (53 - d) with 0 by lia. lia.
    - eexists. split; [done|]. rewrite pos_iter_xO. do 2 f_equal. lia. }
  assert (Z.pos (digits2_pos mz) = 53) as Hdz.
  { pose proof (Zdigits2_mul_pow2 (Z.pos m) (53 - d) ltac:(lia) ltac:(lia)) as H.
    rewrite <- Hmz in H. simpl in H. fold d in H. lia. }
  assert (binary_round_aux prec emax false (Z.pos mz) (d - 53) loc_Exact
          = S754_finite false mz (d - 53)) as Hround.
  { unfold binary_round_aux, shr_fexp.
    assert (fexp prec emax (Zdigits2 (Z.pos mz) + (d - 53)) - (d - 53) = 0) as ->.
    { simpl Zdigits2. rewrite Hdz. unfold fexp, SpecFloat.emin, prec, emax. lia. }
    cbn [shr shr_record_of_loc loc_of_shr_record shr_m round_nearest_even].
    assert (fexp prec emax (Zdigits2 (Z.pos mz) + (d - 53)) - (d - 53) = 0) as ->.
    { simpl Zdigits2. rewrite Hdz. unfold fexp, SpecFloat.emin, prec, emax. lia. }
    cbn [shr shr_m]. rewrite (proj2 (Z.leb_le _ _)); [done|]. unfold emax, prec. lia. }
  rewrite Hround.
  assert (Prim2SF (SF2Prim (S754_finite false mz (d - 53))) = S754_finite false mz (d - 53))
    as Hprim.
  { apply Prim2SF_SF2Prim. simpl. unfold bounded, canonical_mantissa.
    rewrite Hdz. apply andb_true_intro. split.
    - apply Z.eqb_eq. unfold fexp, SpecFloat.emin, prec, emax. lia.
    - apply Z.leb_le. unfold emax, prec. lia. }
  set (nf := SF2Prim (S754_finite false mz (d - 53))) in *.
  assert (is_infinity nf = false) as ->.
  { unfold is_infinity. rewrite FloatAxioms.eqb_spec, abs_spec, Hprim.
    replace (Prim2SF infinity) with (S754_infinity false)
      by (symmetry; vm_compute; reflexivity). done. }
  exists nf. split; [done|split].
  - unfold int_of_float. rewrite Hprim. f_equal.
    rewrite Z.shiftl_div_pow2 by lia. rewrite Hmz.
    replace (- (d - 53)) with (53 - d) by lia.
    apply Z.div_mul. apply Z.pow_nonzero; lia.
  - unfold float_is_int. rewrite Hprim, Hmz.
    rewrite (Z.max_l 0 (d - 53)), (Z.max_r 0 (- (d - 53))) by lia.
    replace (- (d - 53)) with (53 - d) by lia. lia.
Qed.

Lemma float_of_int_exact (n : Z) :
  0 <= n < 2 ^ 53 -> exists nf, float_of_int n = Ok nf /\ int_of_float nf = Ok n.
Proof.
  intros Hn. destruct (float_of_int_value n Hn) as (nf & Hnf & Hint & _). by exists nf.
Qed.

Section split_claims.

Variable rng : Type.
Variable np_random_permutation : rng -> nat -> list nat * rng.

(** C4: whatever the row count and the training fraction, when the
    partitioning step of [run] yields masks (the generator having returned
    a permutation of [0..N-1]), both masks have one entry per row and
    every row is true in exactly one of them. *)
Theorem masks_disjoint_exhaustive (ngal : nat) (trainfrac : float) (g g' : rng)
    (train_mask val_mask : list bool) :
  (np_random_permutation g ngal).1 ≡ₚ seq 0 ngal ->
  split_masks rng np_random_permutation ngal trainfrac g = Ok (train_mask, val_mask, g') ->
  length train_mask = ngal /\ length val_mask = ngal
  /\ forall i, (i < ngal)%nat ->
       exists b, train_mask !! i = Some b /\ val_mask !! i = Some (negb b).
Proof.
  intros Hperm H.
  apply split_masks_inv in H as (nf & k & _ & _ & -> & -> & _); [|done].
  rewrite !length_mask_of. split; [done|split; [done|]].
  intros i Hi. rewrite !mask_of_lookup by done. eexists. split; [done|]. f_equal.
  set (randvec := (np_random_permutation g ngal).1) in *.
  assert (Hin : i ∈ slice_to k randvec ++ slice_from k randvec).
  { rewrite slice_to_from, Hperm. apply elem_of_seq. lia. }
  assert (Hnd : NoDup (slice_to k randvec ++ slice_from k randvec)).
  { rewrite slice_to_from, Hperm. apply NoDup_seq. }
  apply NoDup_app in Hnd as (_ & Hdisj & _). apply elem_of_app in Hin.
  destruct (decide (i ∈ slice_to k randvec)) as [Hto|Hto].
  - rewrite (bool_decide_eq_true_2 _ Hto). simpl.
    apply bool_decide_eq_false_2. by apply Hdisj.
  - rewrite (bool_decide_eq_false_2 _ Hto). simpl.
    apply bool_decide_eq_true_2. by destruct Hin.
Qed.

End split_claims.

(** C4 for ten rows at a training fraction of three quarters. *)
Lemma masks_disjoint_exhaustive_witness :
  exists train_mask val_mask g',
    split_masks Z Sample.permutation 10 0.75 87 = Ok (train_mask, val_mask, g')
    /\ length train_mask = 10%nat /\ length val_mask = 10%nat
    /\ forall i, (i < 10)%nat ->
         exists b, train_mask !! i = Some b /\ val_mask !! i = Some (negb b).
Proof.
  eexists _, _, _. split; [vm_compute; reflexivity|].
  eapply (masks_disjoint_exhaustive Z Sample.permutation 10 0.75 87).
  - apply (bool_decide_unpack _). vm_compute. exact I.
  - vm_compute. reflexivity.
Defined.

Section split_counts.

Variable rng : Type.
Variable np_random_permutation : rng -> nat -> list nat * rng.

(** The split at a number of training rows [k] between [0] and [ngal]. *)
Lemma split_masks_counts (ngal : nat) (trainfrac : float) (g : rng) (nf : float) (k : Z) :
  float_of_int (Z.of_nat ngal) = Ok nf ->
  int_of_float (nf * trainfrac) = Ok k ->
  0 <= k <= Z.of_nat ngal ->
  (np_random_permutation g ngal).1 ≡ₚ seq 0 ngal ->
  exists train_mask val_mask g',
    split_masks rng np_random_permutation ngal trainfrac g = Ok (train_mask, val_mask, g')
    /\ count_true train_mask = Z.to_nat k
    /\ count_true val_mask = (ngal - Z.to_nat k)%nat
    /\ forall i,
         (train_mask !! i = Some true
          <-> i ∈ take (Z.to_nat k) (np_random_permutation g ngal).1)
         /\ (val_mask !! i = Some true
             <-> i ∈ drop (Z.to_nat k) (np_random_permutation g ngal).1).
Proof.
  intros Hnf Hk Hrange Hperm.
  eexists _, _, _. split; [by apply (split_masks_Ok _ _ _ _ _ nf k)|].
  set (randvec := (np_random_permutation g ngal).1) in *.
  assert (Hlen : length randvec = ngal) by (by rewrite Hperm, length_seq).
  assert (Hall : Forall (fun i => (i < ngal)%nat) randvec).
  { apply Forall_forall. intros i Hi. rewrite Hperm in Hi. apply elem_of_seq in Hi. lia. }
  assert (Hnd : NoDup randvec) by (rewrite Hperm; apply NoDup_seq).
  unfold slice_to, slice_from. rewrite Hlen, slice_bound_in_range by done.
  rewrite <- (take_drop (Z.to_nat k) randvec) in Hall, Hnd.
  apply Forall_app in Hall as [Hto Hfrom]. apply NoDup_app in Hnd as (Hndto & _ & Hndfrom).
  rewrite !count_true_mask_of by done. rewrite length_take, length_drop, Hlen.
  split; [lia|split; [done|]].
  intros i. split; by apply mask_of_true.
Qed.

End split_counts.

(** ** The calls [run] makes *)

Lemma floor_of_float_int (x : float) (k : Z) :
  floor_of_float x = Some k -> 0 <= k -> int_of_float x = Ok k.
Proof.
  unfold floor_of_float, int_of_float.
  destruct (Prim2SF x) as [s| | |s m e]; try discriminate; [congruence|].
  intros [= <-] Hk. destruct s; [|done].
  apply Z.shiftl_nonneg in Hk. lia.
Qed.

Lemma mask_of_nil n : mask_of n [] = replicate n false.
Proof.
  apply list_eq. intros i. destruct (decide (i < n)%nat).
  - rewrite mask_of_lookup, lookup_replicate_2 by done. done.
  - rewrite !(proj2 (lookup_ge_None _ _)); [done| |].
    + rewrite length_replicate. lia.
    + rewrite length_mask_of. lia.
Qed.

Lemma mask_of_all n idx : idx ≡ₚ seq 0 n -> mask_of n idx = replicate n true.
Proof.
  intros Hperm. apply list_eq. intros i. destruct (decide (i < n)%nat).
  - rewrite mask_of_lookup, lookup_replicate_2 by done.
    f_equal. apply bool_decide_eq_true. rewrite Hperm. apply elem_of_seq. lia.
  - rewrite !(proj2 (lookup_ge_None _ _)); [done| |].
    + rewrite length_replicate. lia.
    + rewrite length_mask_of. lia.
Qed.

Section run_facts.

Variable np_log : float -> float.
Variable uninit : nat -> nat -> float.
Variable rng : Type.
Variable np_random_permutation : rng -> nat -> list nat * rng.
Variable GPz : GPz_module rng.

Lemma run_steps config input g t X sz train_mask val_mask g1 :
  training_table config input = Ok t ->
  _prepare_data np_log uninit t (bands config) (err_bands config) (nondetect_val config)
    (mag_limits config) (log_errors config) = Ok X ->
  getitem t (redshift_col config) = Ok sz ->
  split_masks rng np_random_permutation (length X) (trainfrac config) g
  = Ok (train_mask, val_mask, g1) ->
  run np_log uninit rng np_random_permutation GPz config input g
  = train_calls rng GPz config X sz train_mask val_mask g1.
Proof.
  intros Ht HX Hsz Hsplit. unfold run.
  rewrite Ht. simpl. rewrite HX. simpl. rewrite Hsz. simpl. rewrite Hsplit. done.
Qed.

Lemma run_Ok_inv config input g model g' :
  run np_log uninit rng np_random_permutation GPz config input g = Ok (model, g') ->
  exists t X sz train_mask val_mask g1,
    training_table config input = Ok t
    /\ _prepare_data np_log uninit t (bands config) (err_bands config)
         (nondetect_val config) (mag_limits config) (log_errors config) = Ok X
    /\ getitem t (redshift_col config) = Ok sz
    /\ split_masks rng np_random_permutation (length X) (trainfrac config) g
       = Ok (train_mask, val_mask, g1)
    /\ train_calls rng GPz config X sz train_mask val_mask g1 = Ok (model, g').
Proof.
  unfold run. intros H.
  apply bind_Ok in H as (t & Ht & H). apply bind_Ok in H as (X & HX & H).
  apply bind_Ok in H as (sz & Hsz & H).
  apply bind_Ok in H as ([[train_mask val_mask] g1] & Hsplit & H).
  by exists t, X, sz, train_mask, val_mask, g1.
Qed.

(** The bin width of the configuration reaches no call. *)
Lemma run_ignores_csl_binwidth config input g w :
  run np_log uninit rng np_random_permutation GPz (with_csl_binwidth w config) input g
  = run np_log uninit rng np_random_permutation GPz config input g.
Proof. reflexivity. Qed.

End run_facts.

(** With the recording module a successful [run] returns the arguments of
    its calls. *)
Lemma recorded_train_calls {rng} (reseed : Z -> rng -> rng) (draw : rng -> rng)
    config X sz train_mask val_mask g1 :
  train_calls rng (recorder reseed draw) config X sz train_mask val_mask g1
  = Ok ({| rec_n_basis := n_basis config; rec_method := gpz_method config;
           rec_joint := learn_jointly config;
           rec_heteroscedastic := hetero_noise config;
           rec_decorrelate := pca_decorrelate config; rec_seed := seed config;
           rec_train := Some (X, sz, (sz, csl_method config, None), train_mask,
                              val_mask, max_iter config, max_attempt config) |},
        draw (reseed (seed config) g1)).
Proof. reflexivity. Qed.

(** ** Claims about the split and the training calls *)

Section inform_claims.

Variable np_log : float -> float.
Variable uninit : nat -> nat -> float.
Variable rng : Type.
Variable np_random_permutation : rng -> nat -> list nat * rng.

(** C2, as amended: two runs that start from the same state of NumPy's
    process-wide generator, on tables with the same number of rows and with
    the same training fraction, hand identical training and validation
    masks to the model's training routine, whatever their seeds: the
    permutation is drawn from the generator state at entry.  The runs are
    observed through the recording module. *)
Theorem masks_from_generator_state (reseed : Z -> rng -> rng) (draw : rng -> rng)
    (config1 config2 : InformConfig) (input1 input2 : input_data) (g g1 g2 : rng)
    (model1 model2 : gp_record) (X1 X2 : matrix) (sz1 sz2 : list float)
    (om1 om2 : list float * string * option float)
    (train_mask1 val_mask1 train_mask2 val_mask2 : list bool) (mi1 ma1 mi2 ma2 : Z) :
  run np_log uninit rng np_random_permutation (recorder reseed draw) config1 input1 g
  = Ok (model1, g1) ->
  run np_log uninit rng np_random_permutation (recorder reseed draw) config2 input2 g
  = Ok (model2, g2) ->
  rec_train model1 = Some (X1, sz1, om1, train_mask1, val_mask1, mi1, ma1) ->
  rec_train model2 = Some (X2, sz2, om2, train_mask2, val_mask2, mi2, ma2) ->
  length X1 = length X2 -> trainfrac config1 = trainfrac config2 ->
  train_mask1 = train_mask2 /\ val_mask1 = val_mask2.
Proof.
  intros H1 H2 Hrec1 Hrec2 Hlen Hfrac.
  apply run_Ok_inv in H1 as (t1 & Y1 & s1 & tr1 & va1 & h1 & _ & _ & _ & Hsplit1 & Hcalls1).
  apply run_Ok_inv in H2 as (t2 & Y2 & s2 & tr2 & va2 & h2 & _ & _ & _ & Hsplit2 & Hcalls2).
  rewrite recorded_train_calls in Hcalls1, Hcalls2.
  injection Hcalls1 as <- _. injection Hcalls2 as <- _. simpl in Hrec1, Hrec2.
  injection Hrec1 as -> _ _ -> -> _ _. injection Hrec2 as -> _ _ -> -> _ _.
  rewrite Hlen, Hfrac, Hsplit2 in Hsplit1. by injection Hsplit1 as -> -> _.
Qed.

(** C5: for every row count [N] below [2^53] and every training fraction
    [f] strictly between 0 and 1: [float(N)] is the binary64 [nf] that
    equals [N] exactly and, with [k] the floor of the binary64 product
    [nf * f] (the product [int(ngal * trainfrac)] truncates), [k] lies
    between [0] and [N], the partitioning step yields masks, the training
    mask selects exactly [k] rows, namely the first [k] entries of the
    permutation, and the validation mask the other [N - k], namely the
    remaining entries. *)
Theorem split_sizes (ngal : nat) (trainfrac : float) (g : rng) :
  Z.of_nat ngal < 2 ^ 53 ->
  PrimFloat.ltb 0 trainfrac = true -> PrimFloat.ltb trainfrac 1 = true ->
  (np_random_permutation g ngal).1 ≡ₚ seq 0 ngal ->
  exists nf k,
    float_of_int (Z.of_nat ngal) = Ok nf
    /\ float_is_int nf (Z.of_nat ngal)
    /\ floor_of_float (nf * trainfrac) = Some k
    /\ 0 <= k <= Z.of_nat ngal
    /\ exists train_mask val_mask g',
         split_masks rng np_random_permutation ngal trainfrac g
         = Ok (train_mask, val_mask, g')
         /\ count_true train_mask = Z.to_nat k
         /\ count_true val_mask = (ngal - Z.to_nat k)%nat
         /\ forall i,
              (train_mask !! i = Some true
               <-> i ∈ take (Z.to_nat k) (np_random_permutation g ngal).1)
              /\ (val_mask !! i = Some true
                  <-> i ∈ drop (Z.to_nat k) (np_random_permutation g ngal).1).
Proof.
  intros HN H0 H1 Hperm.
  destruct (float_of_int_value (Z.of_nat ngal)) as (nf & Hnf & Hexact & Hvalue); [lia|].
  destruct (fraction_of_rows (Z.of_nat ngal) nf trainfrac) as (k & Hk & Hfloor & Hrange);
    [lia|done..|].
  exists nf, k. split; [done|split; [done|split; [done|split; [done|]]]].
  by apply (split_masks_counts _ _ _ _ _ nf k).
Qed.

(** C8, as amended: when the floor of [N * f] is [0] or [N], [run] rejects
    nothing: the partitioning step yields an all-false training mask (for
    [0]) or an all-false validation mask (for [N]), and [run] goes on to
    [getOmega], the [GP] constructor and the model's training routine, which
    is called with these masks. *)
Theorem degenerate_split_is_trained (GPz : GPz_module rng) (config : InformConfig)
    (input : input_data) (g : rng) (t : table) (X : matrix) (sz : list float)
    (nf : float) (k : Z) :
  training_table config input = Ok t ->
  _prepare_data np_log uninit t (bands config) (err_bands config) (nondetect_val config)
    (mag_limits config) (log_errors config) = Ok X ->
  getitem t (redshift_col config) = Ok sz ->
  (np_random_permutation g (length X)).1 ≡ₚ seq 0 (length X) ->
  float_of_int (Z.of_nat (length X)) = Ok nf ->
  floor_of_float (nf * trainfrac config) = Some k ->
  k = 0 \/ k = Z.of_nat (length X) ->
  exists train_mask val_mask g1,
    (k = 0 -> train_mask = replicate (length X) false
              /\ val_mask = replicate (length X) true)
    /\ (k = Z.of_nat (length X) -> train_mask = replicate (length X) true
                                   /\ val_mask = replicate (length X) false)
    /\ run np_log uninit rng np_random_permutation GPz config input g
       = train_calls rng GPz config X sz train_mask val_mask g1.
Proof.
  intros Ht HX Hsz Hperm Hnf Hfloor Hk.
  assert (Hint : int_of_float (nf * trainfrac config) = Ok k).
  { apply floor_of_float_int; [done|lia]. }
  pose proof (split_masks_Ok rng np_random_permutation _ _ g nf k Hnf Hint Hperm) as Hsplit.
  eexists _, _, _. split; [|split; [|by eapply run_steps]].
  - intros ->. unfold slice_to, slice_from.
    rewrite slice_bound_in_range by lia. simpl.
    rewrite take_0, drop_0. split; [apply mask_of_nil|by apply mask_of_all].
  - intros ->. unfold slice_to, slice_from.
    rewrite slice_bound_in_range by (rewrite Hperm, length_seq; lia).
    rewrite Nat2Z.id.
    rewrite take_ge, drop_ge by (rewrite Hperm, length_seq; lia).
    split; [by apply mask_of_all|apply mask_of_nil].
Qed.

End inform_claims.

(** C2 as stated fails: the same configuration (seed 87) on the same
    three-row table, entered with the process-wide generator in two
    different states, trains on different masks. *)
Lemma same_seed_different_masks :
  exists m1 g1 m2 g2,
    run Sample.log Sample.uninit Z Sample.permutation Sample.GPz Sample.inform_config
      (Columns Sample.photometry) 87 = Ok (m1, g1)
    /\ run Sample.log Sample.uninit Z Sample.permutation Sample.GPz Sample.inform_config
         (Columns Sample.photometry) 88 = Ok (m2, g2)
    /\ seed Sample.inform_config = 87
    /\ rec_masks m1 = Some ([true; false; true], [false; true; false])
    /\ rec_masks m2 = Some ([true; true; false], [false; false; true]).
Proof.
  eexists _, _, _, _. split; [vm_compute; reflexivity|].
  split; [vm_compute; reflexivity|]. repeat split.
Qed.

(** C2 as amended, on the sample table: two configurations with the seeds
    87 and 2024, entered with the generator in the same state, train on the
    same masks. *)
Lemma masks_from_generator_state_witness :
  exists m1 g1 m2 g2 train_mask1 val_mask1 train_mask2 val_mask2,
    run Sample.log Sample.uninit Z Sample.permutation Sample.GPz Sample.inform_config
      (Columns Sample.photometry) 87 = Ok (m1, g1)
    /\ run Sample.log Sample.uninit Z Sample.permutation Sample.GPz Sample.balanced_config
         (Columns Sample.photometry) 87 = Ok (m2, g2)
    /\ rec_masks m1 = Some (train_mask1, val_mask1)
    /\ rec_masks m2 = Some (train_mask2, val_mask2)
    /\ train_mask1 = train_mask2 /\ val_mask1 = val_mask2.
Proof.
  eexists _, _, _, _, _, _, _, _.
  split; [vm_compute; reflexivity|]. split; [vm_compute; reflexivity|].
  split; [vm_compute; reflexivity|]. split; [vm_compute; reflexivity|].
  eapply (masks_from_generator_state Sample.log Sample.uninit Z Sample.permutation
            (fun seed _ => seed) Sample.lcg Sample.inform_config Sample.balanced_config
            (Columns Sample.photometry) (Columns Sample.photometry) 87).
  - vm_compute. reflexivity.
  - vm_compute. reflexivity.
  - vm_compute. reflexivity.
  - vm_compute. reflexivity.
  - reflexivity.
  - reflexivity.
Defined.

(** C5 for ten rows at a training fraction of three quarters: seven rows
    train, three validate. *)
Lemma split_sizes_witness :
  exists nf k,
    float_of_int (Z.of_nat 10) = Ok nf
    /\ float_is_int nf (Z.of_nat 10)
    /\ floor_of_float (nf * 0.75) = Some k
    /\ 0 <= k <= Z.of_nat 10
    /\ exists train_mask val_mask g',
         split_masks Z Sample.permutation 10 0.75 87 = Ok (train_mask, val_mask, g')
         /\ count_true train_mask = Z.to_nat k
         /\ count_true val_mask = (10 - Z.to_nat k)%nat
         /\ forall i,
              (train_mask !! i = Some true
               <-> i ∈ take (Z.to_nat k) (Sample.permutation 87 10).1)
              /\ (val_mask !! i = Some true
                  <-> i ∈ drop (Z.to_nat k) (Sample.permutation 87 10).1).
Proof.
  apply (split_sizes Z Sample.permutation 10 0.75 87).
  - vm_compute. reflexivity.
  - vm_compute. reflexivity.
  - vm_compute. reflexivity.
  - apply (bool_decide_unpack _). vm_compute. exact I.
Defined.

(** C8 as stated fails: three rows at a training fraction of a quarter
    leave [floor(0.75) = 0] rows to train on; [run] raises nothing and the
    training routine is called with an all-false training mask. *)
Lemma empty_training_set_is_trained :
  exists m g',
    run Sample.log Sample.uninit Z Sample.permutation Sample.GPz Sample.quarter_config
      (Columns Sample.photometry) 87 = Ok (m, g')
    /\ float_of_int 3 = Ok 3%float
    /\ floor_of_float (3 * trainfrac Sample.quarter_config) = Some 0
    /\ rec_masks m = Some ([false; false; false], [true; true; true]).
Proof.
  eexists _, _. split; [vm_compute; reflexivity|]. repeat split.
Qed.

(** C8 as amended, on the sample table at a training fraction of a
    quarter. *)
Lemma degenerate_split_is_trained_witness :
  exists X sz train_mask val_mask g1,
    (0 = 0 -> train_mask = replicate (length X) false
              /\ val_mask = replicate (length X) true)
    /\ (0 = Z.of_nat (length X) -> train_mask = replicate (length X) true
                                   /\ val_mask = replicate (length X) false)
    /\ run Sample.log Sample.uninit Z Sample.permutation Sample.GPz Sample.quarter_config
         (Columns Sample.photometry) 87
       = train_calls Z Sample.GPz Sample.quarter_config X sz train_mask val_mask g1.
Proof.
  eexists _, _.
  eapply (degenerate_split_is_trained Sample.log Sample.uninit Z Sample.permutation
            Sample.GPz Sample.quarter_config (Columns Sample.photometry) 87
            Sample.photometry _ _ 3%float 0).
  - reflexivity.
  - vm_compute. reflexivity.
  - vm_compute. reflexivity.
  - apply (bool_decide_unpack _). vm_compute. exact I.
  - vm_compute. reflexivity.
  - vm_compute. reflexivity.
  - left. reflexivity.
Defined.

(** C7, evaluated: with the method "balanced" and a configured bin width
    of 0.5, [getOmega] is called with the redshifts and the method only;
    no bin width is passed. *)
Lemma balanced_call_has_no_binwidth :
  exists m g',
    run Sample.log Sample.uninit Z Sample.permutation Sample.GPz Sample.balanced_config
      (Columns Sample.photometry) 87 = Ok (m, g')
    /\ csl_method Sample.balanced_config = "balanced"
    /\ csl_binwidth Sample.balanced_config = 0.5%float
    /\ rec_omega m = Some ([0.125; 0.25; 0.5]%float, "balanced", None).
Proof.
  eexists _, _. split; [vm_compute; reflexivity|]. repeat split.
Qed.

(** ** [_prepare_data] row by row *)

Lemma mapM_Ok {A B} (f : A -> result B) (l : list A) (k : list B) :
  mapM f l = Ok k <-> Forall2 (fun x y => f x = Ok y) l k.
Proof.
  split.
  - revert k. induction l as [|x l IH]; intros k H; simpl in H.
    + injection H as <-. constructor.
    + apply bind_Ok in H as (y & Hy & H). apply bind_Ok in H as (k' & Hk' & H).
      injection H as <-. constructor; auto.
  - induction 1 as [|x y l k Hy _ IH]; simpl; [done|].
    rewrite Hy. simpl. rewrite IH. done.
Qed.

Lemma matrix_ext (M M' : matrix) (n w : nat) :
  has_shape M n w -> has_shape M' n w ->
  (forall r c, (r < n)%nat -> (c < w)%nat -> cell M r c = cell M' r c) ->
  M = M'.
Proof.
  intros [Hn Hw] [Hn' Hw'] Hcells. apply list_eq. intros r.
  destruct (decide (r < n)%nat) as [Hr|Hr].
  - destruct (lookup_lt_is_Some_2 M r) as [row Hrow]; [lia|].
    destruct (lookup_lt_is_Some_2 M' r) as [row' Hrow']; [lia|].
    rewrite Hrow, Hrow'. f_equal.
    assert (length row = w) as Hlen.
    { eapply Forall_forall in Hw; [|by eapply list_elem_of_lookup_2]. done. }
    assert (length row' = w) as Hlen'.
    { eapply Forall_forall in Hw'; [|by eapply list_elem_of_lookup_2]. done. }
    apply list_eq. intros c. destruct (decide (c < w)%nat) as [Hc|Hc].
    + specialize (Hcells r c Hr Hc). unfold cell in Hcells.
      by rewrite Hrow, Hrow' in Hcells.
    + rewrite !(proj2 (lookup_ge_None _ _)); [done|lia|lia].
  - rewrite !(proj2 (lookup_ge_None _ _)); [done|lia|lia].
Qed.

Lemma has_shape_rows (M : matrix) (n w start size : nat) :
  has_shape M n w -> (start + size <= n)%nat ->
  has_shape (take size (drop start M)) size w.
Proof.
  intros [Hn Hw] Hle. split.
  - rewrite length_take, length_drop. lia.
  - by apply Forall_take, Forall_drop.
Qed.

Lemma cell_rows (M : matrix) (start size r c : nat) :
  (r < size)%nat -> cell (take size (drop start M)) r c = cell M (start + r) c.
Proof. intros Hr. unfold cell. by rewrite lookup_take_lt, lookup_drop. Qed.

Lemma table_rows_lookup (t : table) (start size : nat) (name : string) :
  table_rows start size t !! name = (fun col => take size (drop start col)) <$> t !! name.
Proof. unfold table_rows. apply lookup_fmap. Qed.

Section prepare_data_rows.

Variable np_log : float -> float.
Variable uninit : nat -> nat -> float.

Lemma set_col_total j col (M : matrix) :
  length col = length M ->
  exists M', np.set_col j col M = Ok M' /\ length M' = length M.
Proof.
  intros Hlen. unfold np.set_col, np.broadcast_to. rewrite decide_True by done.
  eexists. split; [done|]. rewrite length_zip_with. lia.
Qed.

Lemma set_col_where_total j mask v (M : matrix) :
  length mask = length M ->
  exists M', np.set_col_where j mask v M = Ok M' /\ length M' = length M.
Proof.
  intros Hlen. unfold np.set_col_where. rewrite decide_True by done.
  eexists. split; [done|]. rewrite length_zip_with. lia.
Qed.

Lemma prepare_band_total data_dict numbands nondet_val logflag i band eband lim
    (M : matrix) col ecol :
  data_dict !! band = Some col -> data_dict !! eband = Some ecol ->
  length col = length M -> length ecol = length M ->
  exists M', prepare_band np_log data_dict numbands nondet_val logflag i band eband lim M
             = Ok M' /\ length M' = length M.
Proof.
  intros Hc He Hlc Hle. unfold prepare_band, getitem. rewrite Hc, He. simpl.
  destruct (set_col_total i col M) as (M1 & -> & H1); [done|]. simpl.
  destruct (set_col_where_total i (is_nondetect nondet_val <$> col) lim M1)
    as (M2 & -> & H2); [rewrite length_fmap; lia|]. simpl.
  assert (exists M3, (if logflag
                      then np.set_col (numbands + i) (np_log <$> ecol) M2
                      else np.set_col (numbands + i) ecol M2) = Ok M3
                     /\ length M3 = length M2) as (M3 & -> & H3).
  { destruct logflag; apply set_col_total; rewrite ?length_fmap; lia. }
  simpl.
  destruct (set_col_where_total (numbands + i) (is_nondetect nondet_val <$> col)
              1%float M3) as (M4 & -> & H4); [rewrite length_fmap; lia|].
  exists M4. split; [done|lia].
Qed.

Lemma prepare_loop_total data_dict numbands nondet_val logflag n items :
  forall i (M : matrix),
  length M = n ->
  (forall band eband lim, (band, (eband, lim)) ∈ items ->
     exists col ecol, data_dict !! band = Some col /\ data_dict !! eband = Some ecol
       /\ length col = n /\ length ecol = n) ->
  exists M', prepare_loop np_log data_dict numbands nondet_val logflag items i M = Ok M'.
Proof.
  induction items as [|[band [eband lim]] items IH]; intros i M Hn Hitems; simpl.
  - by eexists.
  - destruct (Hitems band eband lim) as (col & ecol & Hc & He & Hlc & Hle);
      [apply list_elem_of_here|].
    destruct (prepare_band_total data_dict numbands nondet_val logflag i band eband lim
                M col ecol) as (M1 & -> & H1); [done|done|lia|lia|].
    simpl. apply IH; [lia|]. intros b e l Hin. apply (Hitems b e l).
    by apply list_elem_of_further.
Qed.

Lemma prepare_data_shape data_dict bands err_bands nondet_val maglims logflag M :
  _prepare_data np_log uninit data_dict bands err_bands nondet_val maglims logflag = Ok M ->
  exists band0 col0,
    bands !! 0%nat = Some band0 /\ data_dict !! band0 = Some col0
    /\ has_shape M (length col0) (2 * length bands).
Proof.
  unfold _prepare_data. intros H. ok_steps. exists a, a0. split; [done|split; [done|]].
  eapply prepare_loop_Ok in H as (Hs & _); [exact Hs|apply has_shape_empty| |lia].
  rewrite length_zip_with. simpl. lia.
Qed.

(** Encoding rows [start] to [start + size - 1] of a row-aligned table
    gives the same rows of the encoded table. *)
Lemma prepare_data_rows (data_dict : table) bands err_bands nondet_val maglims logflag
    (M : matrix) (N start size : nat) :
  _prepare_data np_log uninit data_dict bands err_bands nondet_val maglims logflag = Ok M ->
  map_Forall (fun _ col => length col = N) data_dict ->
  (length bands <= length err_bands)%nat -> (length bands <= length maglims)%nat ->
  (start + size <= N)%nat ->
  _prepare_data np_log uninit (table_rows start size data_dict) bands err_bands nondet_val
    maglims logflag = Ok (take size (drop start M)).
Proof.
  intros HM Hrows Herr Hlim Hle.
  destruct (prepare_data_shape _ _ _ _ _ _ _ HM) as (band0 & col0 & Hb0 & Hc0 & Hshape).
  assert (length col0 = N) as HN by (by eapply Hrows).
  rewrite HN in Hshape.
  assert (Hitem : forall i band eband lim,
            bands !! i = Some band -> err_bands !! i = Some eband ->
            maglims.*2 !! i = Some lim ->
            exists col ecol, data_dict !! band = Some col /\ data_dict !! eband = Some ecol
              /\ length col = N /\ length ecol = N).
  { intros i band eband lim Hb He Hl.
    destruct (prepare_data_encoded np_log uninit data_dict (length bands) nondet_val logflag
                bands err_bands maglims M i band eband lim eq_refl HM Hb He Hl)
      as (col & ecol & Hc & Hec & _). exists col, ecol.
    split; [done|split; [done|]]. split; by eapply Hrows. }
  assert (exists M', _prepare_data np_log uninit (table_rows start size data_dict) bands
                       err_bands nondet_val maglims logflag = Ok M') as [M' HM'].
  { unfold _prepare_data, list_getitem, getitem. rewrite Hb0. simpl.
    rewrite table_rows_lookup, Hc0. simpl.
    eapply prepare_loop_total with (n := size).
    - unfold np.empty. rewrite length_fmap, length_seq, length_take, length_drop. lia.
    - intros band eband lim [i Hi]%list_elem_of_lookup_1.
      apply lookup_zip_with_Some in Hi as (b & [e l] & [= -> -> ->] & Hb & Hi).
      apply lookup_zip_with_Some in Hi as (e' & l' & [= -> ->] & He & Hl).
      destruct (Hitem i b e' l' Hb He Hl) as (col & ecol & Hc & Hec & Hlc & Hlec).
      exists (take size (drop start col)), (take size (drop start ecol)).
      rewrite !table_rows_lookup, Hc, Hec. simpl.
      rewrite !length_take, !length_drop. repeat split; lia. }
  rewrite HM'. f_equal.
  destruct (prepare_data_shape _ _ _ _ _ _ _ HM') as (band0' & col0' & Hb0' & Hc0' & Hshape').
  assert (band0' = band0) as -> by congruence.
  rewrite table_rows_lookup, Hc0 in Hc0'. injection Hc0' as <-.
  rewrite length_take, length_drop in Hshape'.
  replace (size `min` (length col0 - start))%nat with size in Hshape' by lia.
  apply (matrix_ext _ _ size (2 * length bands)); [done|by eapply has_shape_rows|].
  intros r c Hr Hc. rewrite cell_rows by done.
  set (i := if decide (c < length bands)%nat then c else (c - length bands)%nat).
  assert (i < length bands)%nat as Hi by (unfold i; case_decide; lia).
  destruct (lookup_lt_is_Some_2 bands i) as [band Hb]; [lia|].
  destruct (lookup_lt_is_Some_2 err_bands i) as [eband He]; [lia|].
  destruct (lookup_lt_is_Some_2 maglims.*2 i) as [lim Hl]; [rewrite length_fmap; lia|].
  destruct (prepare_data_encoded np_log uninit data_dict (length bands) nondet_val logflag
              bands err_bands maglims M i band eband lim eq_refl HM Hb He Hl)
    as (col & ecol & Hcol & Hecol & _ & Hcells).
  destruct (prepare_data_encoded np_log uninit (table_rows start size data_dict)
              (length bands) nondet_val logflag
              bands err_bands maglims M' i band eband lim eq_refl HM' Hb He Hl)
    as (col' & ecol' & Hcol' & Hecol' & _ & Hcells').
  rewrite table_rows_lookup, Hcol in Hcol'. injection Hcol' as <-.
  rewrite table_rows_lookup, Hecol in Hecol'. injection Hecol' as <-.
  assert (length col = N) as Hlc by (by eapply Hrows).
  assert (length ecol = N) as Hlec by (by eapply Hrows).
  destruct (lookup_lt_is_Some_2 col (start + r)) as [m Hm]; [lia|].
  destruct (lookup_lt_is_Some_2 ecol (start + r)) as [e Hecell]; [lia|].
  specialize (Hcells (start + r)%nat m Hm).
  specialize (Hcells' r m). rewrite lookup_take_lt, lookup_drop in Hcells' by done.
  specialize (Hcells' Hm).
  destruct (is_nondetect nondet_val m).
  - destruct Hcells as [H1 H2], Hcells' as [H1' H2'].
    unfold i in *. case_decide; [congruence|].
    replace c with (length bands + (c - length bands))%nat by lia. congruence.
  - destruct Hcells as [H1 H2], Hcells' as [H1' H2'].
    specialize (H2 e Hecell). specialize (H2' e).
    rewrite lookup_take_lt, lookup_drop in H2' by done. specialize (H2' Hecell).
    unfold i in *. case_decide; [congruence|].
    replace c with (length bands + (c - length bands))%nat by lia. congruence.
Qed.

End prepare_data_rows.

(** ** [_process_chunk] *)

Lemma zmode_of_ensemble family locs scales zmode :
  zmode_of {| gen := family; loc := locs; scale := scales; ancil := [("zmode", zmode)] |}
  = zmode.
Proof. unfold zmode_of. simpl. by rewrite lookup_insert_eq. Qed.

Section estimate_facts.

Variable np_log : float -> float.
Variable uninit : nat -> nat -> float.
Variable rng : Type.
Variable GPz : GPz_module rng.
Variable norm_pdf : float -> float -> float -> float.

Lemma predicted_mu_rows model (X : matrix) start size :
  predicted_mu rng GPz model (take size (drop start X))
  = take size (drop start (predicted_mu rng GPz model X)).
Proof. unfold predicted_mu, GP_predict. simpl. by rewrite !fmap_take, !fmap_drop. Qed.

Lemma predicted_totalV_rows model (X : matrix) start size :
  predicted_totalV rng GPz model (take size (drop start X))
  = take size (drop start (predicted_totalV rng GPz model X)).
Proof. unfold predicted_totalV, GP_predict. simpl. by rewrite !fmap_take, !fmap_drop. Qed.

Lemma length_predicted_mu model (X : matrix) :
  length (predicted_mu rng GPz model X) = length X.
Proof. unfold predicted_mu, GP_predict. simpl. by rewrite !length_fmap. Qed.

Lemma length_predicted_totalV model (X : matrix) :
  length (predicted_totalV rng GPz model X) = length X.
Proof. unfold predicted_totalV, GP_predict. simpl. by rewrite !length_fmap. Qed.

(** The steps of a successful [_process_chunk]. *)
Lemma process_chunk_Ok config model start end_ data first out :
  _process_chunk np_log uninit rng GPz norm_pdf config model start end_ data first = Ok out
  <-> exists X zgrid zmode,
        _prepare_data np_log uninit data (est_bands config) (est_err_bands config)
          (est_nondetect_val config) (est_mag_limits config) (est_log_errors config) = Ok X
        /\ np.linspace (zmin config) (zmax config) (nzbins config) = Ok zgrid
        /\ ens_mode norm_pdf
             (qp_Ensemble norm (predicted_mu rng GPz model X) (predicted_totalV rng GPz model X)) zgrid
           = Ok zmode
        /\ out = ({| gen := norm; loc := predicted_mu rng GPz model X;
                     scale := predicted_totalV rng GPz model X;
                     ancil := [("zmode", zmode)] |}, start, end_, first).
Proof.
  unfold _process_chunk, predicted_mu, predicted_totalV, GP_predict. split.
  - intros H. apply bind_Ok in H as (X & HX & H). simpl in H.
    apply bind_Ok in H as (zgrid & Hgrid & H). apply bind_Ok in H as (zmode & Hmode & H).
    injection H as <-. by exists X, zgrid, zmode.
  - intros (X & zgrid & zmode & HX & Hgrid & Hmode & ->).
    rewrite HX. simpl. rewrite Hgrid. simpl. simpl in Hmode. rewrite Hmode. done.
Qed.

Lemma ens_mode_rows family (locs scales : list float) grid zmode start size :
  ens_mode norm_pdf (qp_Ensemble family locs scales) grid = Ok zmode ->
  ens_mode norm_pdf (qp_Ensemble family (take size (drop start locs))
                       (take size (drop start scales))) grid
  = Ok (take size (drop start zmode)).
Proof.
  unfold ens_mode. simpl. destruct grid as [|z grid]; [discriminate|].
  intros H. apply mapM_Ok in H. apply mapM_Ok.
  rewrite <- zip_with_take, <- zip_with_drop.
  by apply Forall2_take, Forall2_drop.
Qed.

Lemma length_ens_mode family (locs scales : list float) grid zmode :
  ens_mode norm_pdf (qp_Ensemble family locs scales) grid = Ok zmode ->
  length locs = length scales -> length zmode = length locs.
Proof.
  unfold ens_mode. simpl. destruct grid as [|z grid]; [discriminate|].
  intros H Hlen. apply mapM_Ok, Forall2_length in H. rewrite <- H.
  rewrite length_zip_with. lia.
Qed.

(** One chunk of a table whose whole-table run succeeds. *)
Lemma process_chunk_rows config model (data : table) (N start size : nat) first ens s e f :
  map_Forall (fun _ col => length col = N) data ->
  (length (est_bands config) <= length (est_err_bands config))%nat ->
  (length (est_bands config) <= length (est_mag_limits config))%nat ->
  (start + size <= N)%nat ->
  _process_chunk np_log uninit rng GPz norm_pdf config model 0 N data true
  = Ok (ens, s, e, f) ->
  exists ens',
    _process_chunk np_log uninit rng GPz norm_pdf config model start (start + size)
      (table_rows start size data) first = Ok (ens', start, (start + size)%nat, first)
    /\ loc ens' = take size (drop start (loc ens))
    /\ scale ens' = take size (drop start (scale ens))
    /\ zmode_of ens' = take size (drop start (zmode_of ens)).
Proof.
  intros Hrows Herr Hlim Hle H.
  apply process_chunk_Ok in H as (X & zgrid & zmode & HX & Hgrid & Hmode & [= -> -> -> ->]).
  eexists. split.
  - apply process_chunk_Ok. exists (take size (drop start X)), zgrid. eexists.
    split; [by eapply prepare_data_rows|]. split; [done|]. split; [|done].
    rewrite predicted_mu_rows, predicted_totalV_rows. by apply ens_mode_rows.
  - simpl. by rewrite predicted_mu_rows, predicted_totalV_rows.
Qed.

Lemma process_chunks_rows config model (data : table) (N : nat) ens s e f sizes :
  map_Forall (fun _ col => length col = N) data ->
  (length (est_bands config) <= length (est_err_bands config))%nat ->
  (length (est_bands config) <= length (est_mag_limits config))%nat ->
  _process_chunk np_log uninit rng GPz norm_pdf config model 0 N data true
  = Ok (ens, s, e, f) ->
  forall start first, (start + sum_list sizes <= N)%nat ->
  exists pieces,
    process_chunks np_log uninit rng GPz norm_pdf config model start sizes data first
    = Ok pieces
    /\ concat (loc <$> pieces) = take (sum_list sizes) (drop start (loc ens))
    /\ concat (scale <$> pieces) = take (sum_list sizes) (drop start (scale ens))
    /\ concat (zmode_of <$> pieces) = take (sum_list sizes) (drop start (zmode_of ens)).
Proof.
  intros Hrows Herr Hlim H. induction sizes as [|size sizes IH]; intros start first Hle.
  - exists []. simpl. by rewrite !take_0.
  - simpl in Hle.
    destruct (process_chunk_rows config model data N start size first ens s e f)
      as (ens' & Hchunk & Hloc & Hscale & Hzmode); [done|done|done|lia|done|].
    destruct (IH (start + size)%nat false) as (rest & Hrest & Hlocs & Hscales & Hzmodes);
      [lia|].
    exists (ens' :: rest). split.
    { simpl. rewrite Hchunk. simpl. rewrite Hrest. done. }
    rewrite !fmap_cons. cbn [concat sum_list sum_list_with].
    rewrite Hloc, Hlocs, Hscale, Hscales, Hzmode, Hzmodes.
    rewrite <- !(drop_drop _ size start), !take_take_drop. done.
Qed.

End estimate_facts.

(** ** Claims about [_process_chunk] *)

Section estimate_claims.

Variable np_log : float -> float.
Variable uninit : nat -> nat -> float.
Variable rng : Type.
Variable GPz : GPz_module rng.
Variable norm_pdf : float -> float -> float -> float.

(** The posterior [_process_chunk] builds: a normal family located at the
    predicted mean, with the predicted total variance itself as its scale. *)
Lemma process_chunk_posterior config model start end_ data first ens s e f :
  _process_chunk np_log uninit rng GPz norm_pdf config model start end_ data first
  = Ok (ens, s, e, f) ->
  exists X,
    _prepare_data np_log uninit data (est_bands config) (est_err_bands config)
      (est_nondetect_val config) (est_mag_limits config) (est_log_errors config) = Ok X
    /\ gen ens = norm
    /\ loc ens = predicted_mu rng GPz model X
    /\ scale ens = predicted_totalV rng GPz model X.
Proof.
  intros H. apply process_chunk_Ok in H as (X & zgrid & zmode & HX & _ & _ & [= -> _ _ _]).
  by exists X.
Qed.

(** C9: on a row-aligned table of [N] rows, with one error band and one
    limit per band, whenever [_process_chunk] succeeds on the whole table
    as one chunk it succeeds on every chunk of every split of the rows
    into consecutive chunks, with the same model, and the means, the
    scales (the predicted variances) and the modes of the chunks, put end
    to end, are those of the whole table.  Modelled from the spec:
    [GP.predict] and the ensemble's mode work row by row. *)
Theorem chunk_size_invariance (config : EstimatorConfig) (model : GP_model GPz)
    (data : table) (N : nat) (sizes : list nat) (ens : Ensemble) (s e : nat) (f : bool) :
  map_Forall (fun _ col => length col = N) data ->
  (length (est_bands config) <= length (est_err_bands config))%nat ->
  (length (est_bands config) <= length (est_mag_limits config))%nat ->
  sum_list sizes = N ->
  _process_chunk np_log uninit rng GPz norm_pdf config model 0 N data true
  = Ok (ens, s, e, f) ->
  exists pieces,
    process_chunks np_log uninit rng GPz norm_pdf config model 0 sizes data true
    = Ok pieces
    /\ concat (loc <$> pieces) = loc ens
    /\ concat (scale <$> pieces) = scale ens
    /\ concat (zmode_of <$> pieces) = zmode_of ens.
Proof.
  intros Hrows Herr Hlim Hsum H.
  destruct (process_chunks_rows np_log uninit rng GPz norm_pdf config model data N ens s e f
              sizes Hrows Herr Hlim H 0%nat true) as (pieces & Hp & Hloc & Hscale & Hzmode);
    [lia|].
  exists pieces. split; [done|]. rewrite Hloc, Hscale, Hzmode, Hsum, !drop_0.
  apply process_chunk_Ok in H as (X & zgrid & zmode & HX & _ & Hmode & [= -> _ _ _]).
  destruct (prepare_data_shape _ _ _ _ _ _ _ _ _ HX) as (band0 & col0 & _ & Hc0 & [HlenX _]).
  assert (length X = N) as HN by (rewrite HlenX; by eapply Hrows).
  apply length_ens_mode in Hmode;
    [|by rewrite length_predicted_mu, length_predicted_totalV].
  rewrite zmode_of_ensemble. cbn [loc scale].
  rewrite !take_ge; [done|..];
    rewrite ?Hmode, ?length_predicted_mu, ?length_predicted_totalV; lia.
Qed.

End estimate_claims.

(** C9 on the sample table, split into chunks of two, zero and one
    rows. *)
Lemma chunk_size_invariance_witness :
  exists ens,
    _process_chunk Sample.log Sample.uninit Z Sample.GPz Sample.norm_pdf
      Sample.estimator_config Sample.model 0 3 Sample.photometry true = Ok (ens, 0, 3, true)%nat
    /\ exists pieces,
         process_chunks Sample.log Sample.uninit Z Sample.GPz Sample.norm_pdf
           Sample.estimator_config Sample.model 0 [2; 0; 1]%nat Sample.photometry true
         = Ok pieces
         /\ concat (loc <$> pieces) = loc ens
         /\ concat (scale <$> pieces) = scale ens
         /\ concat (zmode_of <$> pieces) = zmode_of ens.
Proof.
  eexists. split; [vm_compute; reflexivity|].
  eapply (chunk_size_invariance Sample.log Sample.uninit Z Sample.GPz Sample.norm_pdf
            Sample.estimator_config Sample.model Sample.photometry 3 [2; 0; 1]%nat
            _ 0 3 true).
  - apply (bool_decide_unpack _). vm_compute. exact I.
  - vm_compute. lia.
  - vm_compute. lia.
  - reflexivity.
  - vm_compute. reflexivity.
Defined.

(** C1, evaluated: for the first source of the sample table the model
    predicts a total variance of 1.5625, whose square root is 1.25; the
    posterior [_process_chunk] builds has the variance 1.5625 as its
    scale. *)
Lemma scale_is_total_variance :
  exists X ens,
    _prepare_data Sample.log Sample.uninit Sample.photometry Sample.band_names
      Sample.err_names 99%float Sample.limits true = Ok X
    /\ predicted_mu Z Sample.GPz Sample.model X !! 0%nat = Some 1.28125%float
    /\ predicted_totalV Z Sample.GPz Sample.model X !! 0%nat = Some 1.5625%float
    /\ PrimFloat.sqrt 1.5625 = 1.25%float
    /\ _process_chunk Sample.log Sample.uninit Z Sample.GPz Sample.norm_pdf
         Sample.estimator_config Sample.model 0 3 Sample.photometry true
       = Ok (ens, 0, 3, true)%nat
    /\ loc ens !! 0%nat = Some 1.28125%float
    /\ scale ens !! 0%nat = Some 1.5625%float.
Proof.
  eexists _, _. split; [vm_compute; reflexivity|].
  split; [vm_compute; reflexivity|]. split; [vm_compute; reflexivity|].
  split; [vm_compute; reflexivity|]. split; [vm_compute; reflexivity|].
  split; reflexivity.
Qed.

(** * Further properties of the encoder, the split and the estimator *)

(** ** When [_prepare_data] succeeds and what it raises *)

Lemma bind_Raise {A B} (m : result A) (k : A -> result B) (e : error) :
  m = Raise e -> m ≫= k = Raise e.
Proof. by intros ->. Qed.

Lemma set_col_inv j col (M M' : matrix) :
  np.set_col j col M = Ok M' ->
  (length col = length M \/ length col = 1%nat) /\ length M' = length M.
Proof.
  unfold np.set_col, np.broadcast_to. case_decide as Hlen.
  - intros [= <-]. rewrite length_zip_with. split; [by left|lia].
  - destruct col as [|x [|? ?]]; try discriminate. intros [= <-].
    rewrite length_zip_with, length_replicate. split; [by right|lia].
Qed.

Lemma set_col_where_inv j mask v (M M' : matrix) :
  np.set_col_where j mask v M = Ok M' -> length mask = length M /\ length M' = length M.
Proof.
  unfold np.set_col_where. case_decide as Hlen; [|discriminate].
  intros [= <-]. rewrite length_zip_with. split; [done|lia].
Qed.

Lemma set_col_fits j col (M : matrix) :
  length col = length M \/ length col = 1%nat ->
  exists M', np.set_col j col M = Ok M' /\ length M' = length M.
Proof.
  intros [Hlen|Hlen]; [by apply set_col_total|].
  unfold np.set_col, np.broadcast_to. case_decide as Hn.
  - eexists. split; [done|]. rewrite length_zip_with. lia.
  - destruct col as [|x [|? ?]]; try discriminate.
    eexists. split; [done|]. rewrite length_zip_with, length_replicate. lia.
Qed.

Section prepare_data_outcomes.

Variable np_log : float -> float.
Variable uninit : nat -> nat -> float.
Variable data_dict : table.
Variable numbands : nat.
Variable nondet_val : float.
Variable logflag : bool.

Local Abbreviation loop := (prepare_loop np_log data_dict numbands nondet_val logflag).
Local Abbreviation body := (prepare_band np_log data_dict numbands nondet_val logflag).

Lemma prepare_band_inv i band eband lim (M M' : matrix) :
  body i band eband lim M = Ok M' ->
  columns_fit data_dict (length M) band eband /\ length M' = length M.
Proof.
  unfold prepare_band. intros H. ok_steps.
  apply set_col_inv in Hstep0 as [_ H1].
  apply set_col_where_inv in Hstep1 as [Hmask H2]. rewrite length_fmap in Hmask.
  assert ((length a2 = length a1 \/ length a2 = 1%nat) /\ length a3 = length a1)
    as [Hecol H3].
  { destruct logflag; apply set_col_inv in Hstep3 as [Hl ?];
      rewrite ?length_fmap in Hl; done. }
  apply set_col_where_inv in H as [_ H4].
  split; [|lia]. exists a, a2. rewrite <- H1, <- H2. repeat split; try done; lia.
Qed.

Lemma prepare_band_fits i band eband lim (M : matrix) :
  columns_fit data_dict (length M) band eband ->
  exists M', body i band eband lim M = Ok M' /\ length M' = length M.
Proof.
  intros (col & ecol & Hc & Hlc & He & Hle). unfold prepare_band, getitem.
  rewrite Hc, He. simpl.
  destruct (set_col_fits i col M) as (M1 & -> & H1); [by left|]. simpl.
  destruct (set_col_where_total i (is_nondetect nondet_val <$> col) lim M1)
    as (M2 & -> & H2); [rewrite length_fmap; lia|]. simpl.
  assert (exists M3, (if logflag
                      then np.set_col (numbands + i) (np_log <$> ecol) M2
                      else np.set_col (numbands + i) ecol M2) = Ok M3
                     /\ length M3 = length M2) as (M3 & -> & H3).
  { destruct logflag; apply set_col_fits; rewrite ?length_fmap; lia. }
  simpl.
  destruct (set_col_where_total (numbands + i) (is_nondetect nondet_val <$> col)
              1%float M3) as (M4 & -> & H4); [rewrite length_fmap; lia|].
  exists M4. split; [done|lia].
Qed.

Lemma prepare_loop_inv items : forall i (M M' : matrix),
  loop items i M = Ok M' ->
  length M' = length M
  /\ forall band eband lim, (band, (eband, lim)) ∈ items ->
       columns_fit data_dict (length M) band eband.
Proof.
  induction items as [|[band [eband lim]] items IH]; intros i M M' H; simpl in H.
  - injection H as <-. split; [done|]. intros ??? Hin. by apply elem_of_nil in Hin.
  - apply bind_Ok in H as (M1 & Hband & H).
    apply prepare_band_inv in Hband as [Hfit H1].
    apply IH in H as [H' Hfits]. split; [lia|].
    intros b e l [[= -> -> ->]|Hin]%elem_of_cons; [done|].
    rewrite <- H1. by apply (Hfits b e l).
Qed.

Lemma prepare_loop_fits items : forall i (M : matrix),
  (forall band eband lim, (band, (eband, lim)) ∈ items ->
     columns_fit data_dict (length M) band eband) ->
  exists M', loop items i M = Ok M' /\ length M' = length M.
Proof.
  induction items as [|[band [eband lim]] items IH]; intros i M Hfits; simpl.
  - by eexists.
  - destruct (prepare_band_fits i band eband lim M) as (M1 & -> & H1).
    { apply (Hfits band eband lim). apply list_elem_of_here. }
    simpl. destruct (IH (S i) M1) as (M' & HM' & H').
    { intros b e l Hin. rewrite H1. apply (Hfits b e l).
      by apply list_elem_of_further. }
    exists M'. split; [done|lia].
Qed.

Lemma prepare_loop_app items1 items2 : forall i (M : matrix),
  loop (items1 ++ items2) i M
  = loop items1 i M ≫= loop items2 (i + length items1).
Proof.
  induction items1 as [|[band [eband lim]] items1 IH]; intros i M; simpl.
  - by rewrite Nat.add_0_r.
  - destruct (body i band eband lim M) as [M1|e]; simpl; [|done].
    rewrite IH. do 2 f_equal. lia.
Qed.

(** The loop leaves alone the columns of the positions after those it
    visits. *)
Lemma prepare_loop_untouched items : forall i (M M' : matrix) n w,
  loop items i M = Ok M' ->
  has_shape M n w -> (i + length items <= numbands)%nat -> (2 * numbands <= w)%nat ->
  forall r c, (i + length items <= c < numbands \/ numbands + i + length items <= c)%nat ->
    cell M' r c = cell M r c.
Proof.
  induction items as [|[band [eband lim]] items IH]; intros i M M' n w H Hs Hlen Hw r c Hc.
  - simpl in H. by injection H as <-.
  - simpl in H, Hlen. apply bind_Ok in H as (M1 & Hband & H).
    apply prepare_band_Ok with (n := n) (w := w) in Hband as (Hs1 & Hoth1 & _);
      [|done|lia|lia].
    rewrite (IH (S i) M1 M' n w H Hs1) by (simpl in Hc; lia).
    apply Hoth1; simpl in Hc; lia.
Qed.

End prepare_data_outcomes.

Lemma cell_empty uninit n w r c :
  (r < n)%nat -> (c < w)%nat -> cell (np.empty uninit n w) r c = Some (uninit r c).
Proof.
  intros Hr Hc. unfold cell, np.empty.
  rewrite list_lookup_fmap, lookup_seq_lt by done. simpl.
  by rewrite list_lookup_fmap, lookup_seq_lt.
Qed.

Lemma elem_of_zip3 (bands err_bands : list string) (limits : list float) band eband lim :
  (band, (eband, lim)) ∈ zip bands (zip err_bands limits) <->
  exists i, bands !! i = Some band /\ err_bands !! i = Some eband /\ limits !! i = Some lim.
Proof.
  rewrite list_elem_of_lookup. split.
  - intros [i Hi]. exists i.
    apply lookup_zip_with_Some in Hi as (b & [e l] & [= -> -> ->] & Hb & Hi).
    apply lookup_zip_with_Some in Hi as (e' & l' & [= -> ->] & He & Hl). done.
  - intros (i & Hb & He & Hl). exists i.
    apply lookup_zip_with_Some. exists band, (eband, lim). split; [done|split; [done|]].
    apply lookup_zip_with_Some. by exists eband, lim.
Qed.

Lemma length_zip3 (bands err_bands : list string) (maglims : list (string * float)) :
  length (zip bands (zip err_bands maglims.*2)) = positions_visited bands err_bands maglims.
Proof. unfold positions_visited. by rewrite !length_zip_with, length_fmap. Qed.

Section prepare_data_tables.

Variable np_log : float -> float.
Variable uninit : nat -> nat -> float.

Lemma prepare_band_ext (t1 t2 : table) numbands nondet_val logflag i band eband lim
    (M : matrix) :
  t1 !! band = t2 !! band -> t1 !! eband = t2 !! eband ->
  prepare_band np_log t1 numbands nondet_val logflag i band eband lim M
  = prepare_band np_log t2 numbands nondet_val logflag i band eband lim M.
Proof. intros Hb He. unfold prepare_band, getitem. by rewrite Hb, He. Qed.

Lemma prepare_loop_ext (t1 t2 : table) numbands nondet_val logflag items :
  forall i (M : matrix),
  (forall band eband lim, (band, (eband, lim)) ∈ items ->
     t1 !! band = t2 !! band /\ t1 !! eband = t2 !! eband) ->
  prepare_loop np_log t1 numbands nondet_val logflag items i M
  = prepare_loop np_log t2 numbands nondet_val logflag items i M.
Proof.
  induction items as [|[band [eband lim]] items IH]; intros i M Hitems; simpl; [done|].
  destruct (Hitems band eband lim) as [Hb He]; [apply list_elem_of_here|].
  rewrite (prepare_band_ext t1 t2) by done.
  destruct (prepare_band np_log t2 _ _ _ _ _ _ _ _) as [M1|e]; simpl; [|done].
  apply IH. intros b e l Hin. apply (Hitems b e l). by apply list_elem_of_further.
Qed.

Lemma prepare_data_ext (t1 t2 : table) bands err_bands nondet_val maglims logflag :
  (forall name, name ∈ bands ++ err_bands -> t1 !! name = t2 !! name) ->
  _prepare_data np_log uninit t1 bands err_bands nondet_val maglims logflag
  = _prepare_data np_log uninit t2 bands err_bands nondet_val maglims logflag.
Proof.
  intros Hsame. unfold _prepare_data, list_getitem.
  destruct (bands !! 0%nat) as [band0|] eqn:Hb0; simpl; [|done].
  unfold getitem. rewrite <- (Hsame band0)
    by (apply elem_of_app; left; by eapply list_elem_of_lookup_2).
  destruct (t1 !! band0) as [col0|]; simpl; [|done].
  apply prepare_loop_ext. intros band eband lim (i & Hb & He & _)%elem_of_zip3.
  split; apply Hsame, elem_of_app; [left|right]; by eapply list_elem_of_lookup_2.
Qed.

(** The loop fails at position [i] with the exception of its body there,
    when the columns of the earlier positions fit. *)
Lemma prepare_loop_raises (data_dict : table) numbands nondet_val logflag items
    (M : matrix) i band eband lim e :
  items !! i = Some (band, (eband, lim)) ->
  (forall j b eb l, (j < i)%nat -> items !! j = Some (b, (eb, l)) ->
     columns_fit data_dict (length M) b eb) ->
  (forall M1 : matrix, length M1 = length M ->
     prepare_band np_log data_dict numbands nondet_val logflag i band eband lim M1
     = Raise e) ->
  prepare_loop np_log data_dict numbands nondet_val logflag items 0 M = Raise e.
Proof.
  intros Hi Hfits Hbody.
  rewrite <- (take_drop i items), prepare_loop_app.
  destruct (prepare_loop_fits np_log data_dict numbands nondet_val logflag (take i items) 0 M)
    as (M1 & -> & H1).
  { intros b eb l [j Hj]%list_elem_of_lookup. apply lookup_take_Some in Hj as [Hj Hlt].
    by apply (Hfits j b eb l). }
  simpl. rewrite length_take_le by (apply lookup_lt_Some in Hi; lia).
  rewrite (drop_S _ _ _ Hi). simpl. by rewrite Hbody.
Qed.

End prepare_data_tables.

(** ** Properties of [_prepare_data] *)

Section prepare_data_properties.

Variable np_log : float -> float.
Variable uninit : nat -> nat -> float.

(** X1: the matrix [_prepare_data] returns has one row per entry of the
    first band's column and [2 * B] cells in every row. *)
Theorem prepare_data_dimensions (data_dict : table) (bands err_bands : list string)
    (nondet_val : float) (maglims : list (string * float)) (logflag : bool) (M : matrix) :
  _prepare_data np_log uninit data_dict bands err_bands nondet_val maglims logflag = Ok M ->
  exists band0 col0,
    bands !! 0%nat = Some band0 /\ data_dict !! band0 = Some col0
    /\ length M = length col0
    /\ Forall (fun row => length row = (2 * length bands)%nat) M.
Proof.
  intros H. destruct (prepare_data_shape _ _ _ _ _ _ _ _ _ H)
    as (band0 & col0 & Hb & Hc & Hlen & Hrows).
  by exists band0, col0.
Qed.

(** X2: [_prepare_data] returns a matrix exactly when the band list is not
    empty, the first band has a column, and at every position the loop
    visits the band has a column as long as the first band's and the error
    band has a column of that length or of a single entry. *)
Theorem prepare_data_succeeds_iff (data_dict : table) (bands err_bands : list string)
    (nondet_val : float) (maglims : list (string * float)) (logflag : bool) :
  (exists M, _prepare_data np_log uninit data_dict bands err_bands nondet_val maglims
               logflag = Ok M)
  <-> exists band0 col0,
        bands !! 0%nat = Some band0 /\ data_dict !! band0 = Some col0
        /\ forall i band eband,
             (i < positions_visited bands err_bands maglims)%nat ->
             bands !! i = Some band -> err_bands !! i = Some eband ->
             columns_fit data_dict (length col0) band eband.
Proof.
  unfold _prepare_data. split.
  - intros [M H]. apply bind_Ok in H as (band0 & Hb0 & H).
    apply bind_Ok in H as (col0 & Hc0 & H).
    apply list_getitem_Ok in Hb0. apply getitem_Ok in Hc0.
    exists band0, col0. split; [done|split; [done|]].
    intros i band eband Hi Hb He.
    apply prepare_loop_inv in H as [_ Hfits].
    unfold np.empty in Hfits. rewrite length_fmap, length_seq in Hfits.
    unfold positions_visited in Hi.
    destruct (lookup_lt_is_Some_2 maglims.*2 i) as [lim Hl]; [rewrite length_fmap; lia|].
    apply (Hfits band eband lim). apply elem_of_zip3. by exists i.
  - intros (band0 & col0 & Hb0 & Hc0 & Hfits).
    unfold list_getitem, getitem. rewrite Hb0. simpl. rewrite Hc0. simpl.
    destruct (prepare_loop_fits np_log data_dict (length bands) nondet_val logflag
                (zip bands (zip err_bands maglims.*2)) 0
                (np.empty uninit (length col0) (2 * length bands))) as (M & HM & _);
      [|by exists M].
    intros band eband lim (i & Hb & He & Hl)%elem_of_zip3.
    unfold np.empty. rewrite length_fmap, length_seq.
    apply (Hfits i); [|done|done]. unfold positions_visited.
    apply lookup_lt_Some in Hb, He, Hl. rewrite length_fmap in Hl. lia.
Qed.

(** X3: a magnitude that is neither close to the non-detection value nor
    NaN is copied unchanged into column [i] of its row. *)
Theorem detected_magnitude_kept (data_dict : table) (bands err_bands : list string)
    (nondet_val : float) (maglims : list (string * float)) (logflag : bool)
    (M : matrix) (i r : nat) (band eband : string) (mags : list float) (m : float) :
  _prepare_data np_log uninit data_dict bands err_bands nondet_val maglims logflag = Ok M ->
  bands !! i = Some band -> err_bands !! i = Some eband -> (i < length maglims)%nat ->
  data_dict !! band = Some mags -> mags !! r = Some m ->
  is_nondetect nondet_val m = false ->
  cell M r i = Some m.
Proof.
  intros H Hb He Hi Hmags Hm Hmask.
  destruct (lookup_lt_is_Some_2 maglims.*2 i) as [lim Hlim]; [by rewrite length_fmap|].
  eapply prepare_data_encoded with (i := i) (lim := lim) in H; [|done..].
  destruct H as (col & ecol & Hc & _ & _ & Hcells).
  assert (col = mags) as -> by congruence.
  specialize (Hcells r m Hm). rewrite Hmask in Hcells. apply Hcells.
Qed.

(** X4: when the limit at position [i] is not NaN, no cell of magnitude
    column [i] is NaN, whatever the table holds. *)
Theorem magnitude_cells_not_nan (data_dict : table) (bands err_bands : list string)
    (nondet_val : float) (maglims : list (string * float)) (logflag : bool)
    (M : matrix) (i r : nat) (band eband : string) (lim : float) :
  _prepare_data np_log uninit data_dict bands err_bands nondet_val maglims logflag = Ok M ->
  bands !! i = Some band -> err_bands !! i = Some eband -> maglims.*2 !! i = Some lim ->
  np.isnan lim = false -> (r < length M)%nat ->
  exists v, cell M r i = Some v /\ np.isnan v = false.
Proof.
  intros H Hb He Hl Hlim Hr.
  eapply prepare_data_encoded with (i := i) (lim := lim) in H; [|done..].
  destruct H as (col & ecol & _ & _ & Hlen & Hcells).
  destruct (lookup_lt_is_Some_2 col r) as [m Hm]; [lia|].
  specialize (Hcells r m Hm). destruct (is_nondetect nondet_val m) eqn:Hmask.
  - exists lim. split; [apply Hcells|done].
  - exists m. split; [apply Hcells|].
    unfold is_nondetect in Hmask. by apply orb_false_elim in Hmask as [_ ?].
Qed.

(** X5: [zip] stops at the shortest of the band list, the error-band list
    and the limits; the columns of the bands after that position are never
    written and keep what [np.empty] allocated. *)
Theorem unvisited_columns_uninitialised (data_dict : table) (bands err_bands : list string)
    (nondet_val : float) (maglims : list (string * float)) (logflag : bool)
    (M : matrix) (i r : nat) :
  _prepare_data np_log uninit data_dict bands err_bands nondet_val maglims logflag = Ok M ->
  (positions_visited bands err_bands maglims <= i < length bands)%nat ->
  (r < length M)%nat ->
  cell M r i = Some (uninit r i)
  /\ cell M r (length bands + i) = Some (uninit r (length bands + i)).
Proof.
  intros H Hi Hr.
  destruct (prepare_data_shape _ _ _ _ _ _ _ _ _ H) as (band0 & col0 & Hb0 & Hc0 & [Hlen _]).
  unfold _prepare_data, list_getitem, getitem in H. rewrite Hb0 in H. simpl in H.
  rewrite Hc0 in H. simpl in H.
  pose proof (prepare_loop_untouched np_log data_dict (length bands) nondet_val logflag
                _ _ _ _ _ _ H (has_shape_empty uninit _ _)) as Hsame.
  rewrite length_zip3 in Hsame.
  assert (positions_visited bands err_bands maglims <= length bands)%nat as Hle
    by (unfold positions_visited; lia).
  rewrite !Hsame by lia. split; apply cell_empty; lia.
Qed.

(** X7: on a row-aligned table of [N] rows with one error band and one
    limit per band, encoding rows [start] to [start + size - 1] gives rows
    [start] to [start + size - 1] of the encoding of the whole table. *)
Theorem prepare_data_of_rows (data_dict : table) (bands err_bands : list string)
    (nondet_val : float) (maglims : list (string * float)) (logflag : bool)
    (M : matrix) (N start size : nat) :
  _prepare_data np_log uninit data_dict bands err_bands nondet_val maglims logflag = Ok M ->
  map_Forall (fun _ col => length col = N) data_dict ->
  (length bands <= length err_bands)%nat -> (length bands <= length maglims)%nat ->
  (start + size <= N)%nat ->
  _prepare_data np_log uninit (table_rows start size data_dict) bands err_bands nondet_val
    maglims logflag = Ok (take size (drop start M)).
Proof. intros. by eapply prepare_data_rows. Qed.

(** X8: on a row-aligned table, when the columns of the positions before
    [i] are present and the magnitude column of band [i] is missing, the
    call raises KeyError for that band, at line 22 for the first band and
    inside the loop for a later one that the loop visits. *)
Theorem missing_band_raises_KeyError (data_dict : table) (bands err_bands : list string)
    (nondet_val : float) (maglims : list (string * float)) (logflag : bool)
    (N i : nat) (band : string) :
  bands !! i = Some band -> data_dict !! band = None ->
  (i = 0%nat \/ i < positions_visited bands err_bands maglims)%nat ->
  map_Forall (fun _ col => length col = N) data_dict ->
  Forall (fun name => is_Some (data_dict !! name)) (take i bands ++ take i err_bands) ->
  _prepare_data np_log uninit data_dict bands err_bands nondet_val maglims logflag
  = Raise (KeyError band).
Proof.
  intros Hb Hmiss Hi Hrows Hpresent. unfold _prepare_data, list_getitem.
  destruct i as [|i].
  { rewrite Hb. simpl. unfold getitem. by rewrite Hmiss. }
  destruct Hi as [Hi|Hi]; [done|].
  assert (forall j name, (j < S i)%nat ->
            bands !! j = Some name \/ err_bands !! j = Some name ->
            exists col, data_dict !! name = Some col /\ length col = N) as Hcols.
  { intros j name Hj Hname. rewrite Forall_app in Hpresent.
    destruct Hpresent as [Hpb Hpe].
    assert (is_Some (data_dict !! name)) as [col Hcol].
    { destruct Hname as [Hname|Hname].
      - eapply Forall_forall in Hpb; [exact Hpb|].
        eapply list_elem_of_lookup_2. by rewrite lookup_take_lt.
      - eapply Forall_forall in Hpe; [exact Hpe|].
        eapply list_elem_of_lookup_2. by rewrite lookup_take_lt. }
    exists col. split; [done|]. by eapply Hrows. }
  destruct (lookup_lt_is_Some_2 bands 0) as [band0 Hb0];
    [apply lookup_lt_Some in Hb; lia|].
  destruct (Hcols 0%nat band0) as (col0 & Hc0 & Hlen0); [lia|by left|].
  rewrite Hb0. simpl. unfold getitem at 1. rewrite Hc0. simpl.
  unfold positions_visited in Hi.
  destruct (lookup_lt_is_Some_2 err_bands (S i)) as [eband He]; [lia|].
  destruct (lookup_lt_is_Some_2 maglims.*2 (S i)) as [lim Hl]; [rewrite length_fmap; lia|].
  apply prepare_loop_raises with (i := S i) (band := band) (eband := eband) (lim := lim).
  - apply lookup_zip_with_Some. exists band, (eband, lim). split; [done|split; [done|]].
    apply lookup_zip_with_Some. by exists eband, lim.
  - intros j b eb l Hj Hitem.
    apply lookup_zip_with_Some in Hitem as (b' & [e' l'] & [= -> -> ->] & Hbj & Hitem).
    apply lookup_zip_with_Some in Hitem as (e'' & l'' & [= -> ->] & Hej & _).
    unfold np.empty. rewrite length_fmap, length_seq.
    destruct (Hcols j b' Hj) as (col & Hcol & Hlc); [by left|].
    destruct (Hcols j e'' Hj) as (ecol & Hecol & Hlec); [by right|].
    exists col, ecol. repeat split; try done; [lia|left; lia].
  - intros M1 _. unfold prepare_band, getitem. by rewrite Hmiss.
Qed.

End prepare_data_properties.

(** X1 on the sample table: three rows of four cells. *)
Lemma prepare_data_dimensions_witness :
  exists M,
    _prepare_data Sample.log Sample.uninit Sample.photometry Sample.band_names
      Sample.err_names 99%float Sample.limits true = Ok M
    /\ exists band0 col0,
         Sample.band_names !! 0%nat = Some band0 /\ Sample.photometry !! band0 = Some col0
         /\ length M = length col0
         /\ Forall (fun row => length row = (2 * length Sample.band_names)%nat) M.
Proof.
  eexists. split; [vm_compute; reflexivity|].
  apply (prepare_data_dimensions Sample.log Sample.uninit Sample.photometry
           Sample.band_names Sample.err_names 99%float Sample.limits true).
  vm_compute. reflexivity.
Defined.

(** X3 on the sample table: source 0 is detected in [u] and keeps its
    magnitude. *)
Lemma detected_magnitude_kept_witness :
  exists M,
    _prepare_data Sample.log Sample.uninit Sample.photometry Sample.band_names
      Sample.err_names 99%float Sample.limits true = Ok M
    /\ cell M 0 0 = Some 20.5%float.
Proof.
  eexists. split; [vm_compute; reflexivity|].
  apply (detected_magnitude_kept Sample.log Sample.uninit Sample.photometry
           Sample.band_names Sample.err_names 99%float Sample.limits true _ 0 0 "u" "u_err"
           [20.5; 99; 21.25]%float 20.5%float).
  - vm_compute. reflexivity.
  - reflexivity.
  - reflexivity.
  - vm_compute. lia.
  - vm_compute. reflexivity.
  - reflexivity.
  - vm_compute. reflexivity.
Defined.

(** X4 on the sample table: source 2 has a NaN magnitude in [g], and the
    cell written for it is not NaN. *)
Lemma magnitude_cells_not_nan_witness :
  exists M,
    _prepare_data Sample.log Sample.uninit Sample.photometry Sample.band_names
      Sample.err_names 99%float Sample.limits true = Ok M
    /\ exists v, cell M 2 1 = Some v /\ np.isnan v = false.
Proof.
  eexists. split; [vm_compute; reflexivity|].
  apply (magnitude_cells_not_nan Sample.log Sample.uninit Sample.photometry
           Sample.band_names Sample.err_names 99%float Sample.limits true _ 1 2 "g" "g_err"
           25%float).
  - vm_compute. reflexivity.
  - reflexivity.
  - reflexivity.
  - vm_compute. reflexivity.
  - vm_compute. reflexivity.
  - vm_compute. lia.
Defined.

(** X5 on the sample table with a limit for [u] only: the loop stops after
    [u], and the two columns of [g] hold what was allocated. *)
Lemma unvisited_columns_uninitialised_witness :
  exists M,
    _prepare_data Sample.log Sample.uninit Sample.photometry Sample.band_names
      Sample.err_names 99%float [("u", 27.5%float)] true = Ok M
    /\ cell M 0 1 = Some (Sample.uninit 0 1)
    /\ cell M 0 (length Sample.band_names + 1) =
       Some (Sample.uninit 0 (length Sample.band_names + 1)).
Proof.
  eexists. split; [vm_compute; reflexivity|].
  apply (unvisited_columns_uninitialised Sample.log Sample.uninit Sample.photometry
           Sample.band_names Sample.err_names 99%float [("u", 27.5%float)] true _ 1 0).
  - vm_compute. reflexivity.
  - vm_compute. lia.
  - vm_compute. lia.
Defined.

(** X7 on the sample table: the encoding of its last two rows. *)
Lemma prepare_data_of_rows_witness :
  exists M,
    _prepare_data Sample.log Sample.uninit Sample.photometry Sample.band_names
      Sample.err_names 99%float Sample.limits true = Ok M
    /\ _prepare_data Sample.log Sample.uninit (table_rows 1 2 Sample.photometry)
         Sample.band_names Sample.err_names 99%float Sample.limits true
       = Ok (take 2 (drop 1 M)).
Proof.
  eexists. split; [vm_compute; reflexivity|].
  apply (prepare_data_of_rows Sample.log Sample.uninit Sample.photometry
           Sample.band_names Sample.err_names 99%float Sample.limits true _ 3 1 2).
  - vm_compute. reflexivity.
  - apply (bool_decide_unpack _). vm_compute. exact I.
  - vm_compute. lia.
  - vm_compute. lia.
  - lia.
Defined.

(** X8 on the sample table, asked for the bands [u] and [r]: there is no
    column [r]. *)
Lemma missing_band_raises_KeyError_witness :
  _prepare_data Sample.log Sample.uninit Sample.photometry ["u"; "r"] ["u_err"; "r_err"]
    99%float Sample.limits true
  = Raise (KeyError "r").
Proof.
  apply (missing_band_raises_KeyError Sample.log Sample.uninit Sample.photometry
           ["u"; "r"] ["u_err"; "r_err"] 99%float Sample.limits true 3 1 "r").
  - reflexivity.
  - vm_compute. reflexivity.
  - right. vm_compute. lia.
  - apply (bool_decide_unpack _). vm_compute. exact I.
  - repeat constructor; vm_compute; by eexists.
Defined.

(** ** The split at any training fraction *)

Lemma SFeqb_refl (x : spec_float) : x <> S754_nan -> SFeqb x x = true.
Proof.
  unfold SFeqb, SFcompare. destruct x as [s|s| |s m e]; intros Hx; try done.
  - by destruct s.
  - rewrite Z.compare_refl.
    change (PosDef.Pos.compare_cont Eq m m) with (m ?= m)%positive.
    rewrite Pos.compare_refl. by destruct s.
Qed.

Lemma is_nan_spec (x : float) : PrimFloat.is_nan x = true -> Prim2SF x = S754_nan.
Proof.
  unfold PrimFloat.is_nan. rewrite FloatAxioms.eqb_spec. intros Hx.
  destruct (Prim2SF x) as [s|s| |s m e] eqn:Hsf; [| |done|];
    by rewrite SFeqb_refl in Hx.
Qed.

Lemma is_infinity_spec (x : float) :
  PrimFloat.is_infinity x = true -> exists s, Prim2SF x = S754_infinity s.
Proof.
  unfold PrimFloat.is_infinity. rewrite FloatAxioms.eqb_spec, abs_spec.
  change (Prim2SF infinity) with (S754_infinity false).
  destruct (Prim2SF x) as [s|s| |s m e]; intros Hx; [done|by exists s|done|done].
Qed.

(** The product of a row count and a fraction that is NaN or infinite. *)
Lemma int_of_nonfinite_product (n : Z) (nf f : float) :
  0 <= n -> float_of_int n = Ok nf -> int_of_float nf = Ok n ->
  PrimFloat.is_finite f = false ->
  int_of_float (nf * f)
  = Raise (if PrimFloat.is_nan f || (n =? 0) then ValueError else OverflowError).
Proof.
  intros Hn Hnf Hint Hf. unfold int_of_float in *. rewrite mul_spec. unfold SF64mul.
  unfold PrimFloat.is_finite in Hf. apply negb_false_iff in Hf.
  destruct (PrimFloat.is_nan f) eqn:Hnan.
  - apply is_nan_spec in Hnan. rewrite Hnan. simpl.
    by destruct (Prim2SF nf) as [s|s| |s m e].
  - simpl in Hf. apply is_infinity_spec in Hf as [s' Hinf]. rewrite Hinf. simpl.
    destruct (Z.eqb_spec n 0) as [->|Hne].
    + vm_compute in Hnf. injection Hnf as <-.
      by change (Prim2SF 0) with (S754_zero false).
    + destruct (Prim2SF nf) as [s|s| |s m e] eqn:Hsf; try discriminate Hint; [|done].
      injection Hint as <-. done.
Qed.

(** On a table whose columns all have [N] rows and hold every band and
    error band, the encoder returns a matrix of [N] rows. *)
Lemma prepare_data_row_aligned (np_log : float -> float) (uninit : nat -> nat -> float)
    (t : table) (bands err_bands : list string) (nondet_val : float)
    (maglims : list (string * float)) (logflag : bool) (N : nat) :
  map_Forall (fun _ col => length col = N) t -> bands <> [] ->
  Forall (fun name => is_Some (t !! name)) (bands ++ err_bands) ->
  exists M, _prepare_data np_log uninit t bands err_bands nondet_val maglims logflag = Ok M
            /\ length M = N.
Proof.
  intros Hrows Hne Hpresent.
  assert (forall name, name ∈ bands ++ err_bands ->
            exists col, t !! name = Some col /\ length col = N) as Hcols.
  { intros name Hin. eapply Forall_forall in Hpresent as [col Hcol]; [|done].
    exists col. split; [done|]. by eapply Hrows. }
  destruct bands as [|band0 bands']; [done|].
  destruct (Hcols band0) as (col0 & Hc0 & Hlen0); [apply elem_of_app; left; left|].
  unfold _prepare_data, list_getitem, getitem. simpl. rewrite Hc0. simpl.
  destruct (prepare_loop_fits np_log t (S (length bands')) nondet_val logflag
              (zip (band0 :: bands') (zip err_bands maglims.*2)) 0
              (np.empty uninit (length col0) (2 * S (length bands')))) as (M & HM & HlenM).
  - intros band eband lim (i & Hb & He & _)%elem_of_zip3.
    unfold np.empty. rewrite length_fmap, length_seq, Hlen0.
    destruct (Hcols band) as (col & Hcol & Hlc);
      [apply elem_of_app; left; by eapply list_elem_of_lookup_2|].
    destruct (Hcols eband) as (ecol & Hecol & Hlec);
      [apply elem_of_app; right; by eapply list_elem_of_lookup_2|].
    exists col, ecol. tauto.
  - exists M. split; [done|]. rewrite HlenM. unfold np.empty.
    by rewrite length_fmap, length_seq.
Qed.

Section split_properties.

Variable rng : Type.
Variable np_random_permutation : rng -> nat -> list nat * rng.

(** X9: the split accepts every training fraction whose product with the
    row count converts to an integer [k], also outside [0, 1]: the masks
    always select all [N] rows between them; a [k] of [N] or more puts
    every row in training, and a negative [k] counts from the end of the
    permutation, leaving [-k] rows (at most [N]) for validation. *)
Theorem split_with_any_fraction (ngal : nat) (trainfrac : float) (g : rng)
    (nf : float) (k : Z) :
  float_of_int (Z.of_nat ngal) = Ok nf ->
  int_of_float (nf * trainfrac) = Ok k ->
  (np_random_permutation g ngal).1 ≡ₚ seq 0 ngal ->
  exists train_mask val_mask g',
    split_masks rng np_random_permutation ngal trainfrac g = Ok (train_mask, val_mask, g')
    /\ (count_true train_mask + count_true val_mask = ngal)%nat
    /\ (0 <= k -> count_true train_mask = Z.to_nat (Z.min k (Z.of_nat ngal)))
    /\ (k < 0 -> count_true val_mask = Z.to_nat (Z.min (- k) (Z.of_nat ngal))).
Proof.
  intros Hnf Hk Hperm.
  eexists _, _, _. split; [by apply (split_masks_Ok _ _ _ _ _ nf k)|].
  set (randvec := (np_random_permutation g ngal).1) in *.
  assert (Hlen : length randvec = ngal) by (by rewrite Hperm, length_seq).
  assert (Hall : Forall (fun i => (i < ngal)%nat) randvec).
  { apply Forall_forall. intros i Hi. rewrite Hperm in Hi. apply elem_of_seq in Hi. lia. }
  assert (Hnd : NoDup randvec) by (rewrite Hperm; apply NoDup_seq).
  unfold slice_to, slice_from. rewrite Hlen.
  rewrite <- (take_drop (slice_bound k ngal) randvec) in Hall, Hnd.
  apply Forall_app in Hall as [Hto Hfrom]. apply NoDup_app in Hnd as (Hndto & _ & Hndfrom).
  rewrite !count_true_mask_of by done. rewrite length_take, length_drop, Hlen.
  unfold slice_bound. destruct (Z.ltb_spec k 0); lia.
Qed.

(** X10: a training fraction that is NaN or infinite stops the split at
    [int(ngal * trainfrac)], before the permutation is drawn: ValueError
    for NaN and for an infinite fraction of an empty table (the product is
    NaN), OverflowError for an infinite fraction otherwise. *)
Theorem nonfinite_fraction_raises (ngal : nat) (trainfrac : float) (g : rng) :
  Z.of_nat ngal < 2 ^ 53 -> np.isfinite trainfrac = false ->
  split_masks rng np_random_permutation ngal trainfrac g
  = Raise (if np.isnan trainfrac || (ngal =? 0)%nat then ValueError else OverflowError).
Proof.
  intros HN Hf.
  destruct (float_of_int_exact (Z.of_nat ngal)) as (nf & Hnf & Hexact); [lia|].
  unfold split_masks. rewrite Hnf. simpl.
  rewrite (int_of_nonfinite_product (Z.of_nat ngal)) by (done || lia). simpl.
  unfold np.isnan. by destruct ngal.
Qed.

End split_properties.

Section run_properties.

Variable np_log : float -> float.
Variable uninit : nat -> nat -> float.
Variable rng : Type.
Variable np_random_permutation : rng -> nat -> list nat * rng.

(** X11: on a row-aligned table that holds every band and error band but
    no redshift column, [run] encodes the photometry and then raises
    KeyError for the redshift column, whatever the [GPz] module. *)
Theorem missing_redshift_raises_KeyError (GPz : GPz_module rng) (config : InformConfig)
    (input : input_data) (g : rng) (t : table) (N : nat) :
  training_table config input = Ok t ->
  map_Forall (fun _ col => length col = N) t -> bands config <> [] ->
  Forall (fun name => is_Some (t !! name)) (bands config ++ err_bands config) ->
  t !! redshift_col config = None ->
  run np_log uninit rng np_random_permutation GPz config input g
  = Raise (KeyError (redshift_col config)).
Proof.
  intros Ht Hrows Hne Hpresent Hmiss.
  destruct (prepare_data_row_aligned np_log uninit t (bands config) (err_bands config)
              (nondetect_val config) (mag_limits config) (log_errors config) N)
    as (X & HX & _); [done..|].
  unfold run. rewrite Ht. simpl. rewrite HX. simpl. unfold getitem. by rewrite Hmiss.
Qed.

(** X12: [run] from the table to the training call, observed through the
    recording module.  On a row-aligned table of [N] rows (below [2^53])
    that holds every band, every error band and the redshift column, at a
    training fraction strictly between 0 and 1, [run] returns a model that
    was trained once, on the encoding of the table and the redshift column,
    with weights from [getOmega(sz, method=csl_method)], with [max_iter]
    and [max_attempt], and with masks that select [k] and [N - k] rows,
    for [k] the floor of the binary64 product of [trainfrac] and the float
    that equals [N] exactly (which is what [float(N)] returns); the
    generator it leaves was advanced by the permutation, then by the
    constructor, then by [train]. *)
Theorem run_trains_on_split (reseed : Z -> rng -> rng) (draw : rng -> rng)
    (config : InformConfig) (input : input_data) (g : rng) (t : table) (N : nat)
    (sz : list float) :
  training_table config input = Ok t ->
  map_Forall (fun _ col => length col = N) t -> bands config <> [] ->
  Forall (fun name => is_Some (t !! name)) (bands config ++ err_bands config) ->
  t !! redshift_col config = Some sz ->
  Z.of_nat N < 2 ^ 53 ->
  PrimFloat.ltb 0 (trainfrac config) = true -> PrimFloat.ltb (trainfrac config) 1 = true ->
  (np_random_permutation g N).1 ≡ₚ seq 0 N ->
  exists model X train_mask val_mask nf k,
    run np_log uninit rng np_random_permutation (recorder reseed draw) config input g
    = Ok (model, draw (reseed (seed config) (np_random_permutation g N).2))
    /\ rec_train model
       = Some (X, sz, (sz, csl_method config, None), train_mask, val_mask,
               max_iter config, max_attempt config)
    /\ _prepare_data np_log uninit t (bands config) (err_bands config)
         (nondetect_val config) (mag_limits config) (log_errors config) = Ok X
    /\ length X = N
    /\ float_of_int (Z.of_nat N) = Ok nf
    /\ float_is_int nf (Z.of_nat N)
    /\ floor_of_float (nf * trainfrac config) = Some k
    /\ 0 <= k <= Z.of_nat N
    /\ count_true train_mask = Z.to_nat k
    /\ count_true val_mask = (N - Z.to_nat k)%nat.
Proof.
  intros Ht Hrows Hne Hpresent Hsz HN H0 H1 Hperm.
  destruct (prepare_data_row_aligned np_log uninit t (bands config) (err_bands config)
              (nondetect_val config) (mag_limits config) (log_errors config) N)
    as (X & HX & HlenX); [done..|].
  destruct (float_of_int_value (Z.of_nat N)) as (nf & Hnf & Hexact & Hvalue); [lia|].
  destruct (fraction_of_rows (Z.of_nat N) nf (trainfrac config))
    as (k & Hk & Hfloor & Hrange); [lia|done..|].
  destruct (split_masks_counts rng np_random_permutation N (trainfrac config) g nf k)
    as (train_mask & val_mask & g1 & Hsplit & Htrain & Hval & _); [done..|].
  pose proof Hsplit as Hg. apply split_masks_inv in Hg as (_ & _ & _ & _ & _ & _ & ->);
    [|done].
  eexists _, X, train_mask, val_mask, nf, k.
  split; [|split; [|done]].
  - rewrite (run_steps np_log uninit rng np_random_permutation _ config input g t X sz
               train_mask val_mask (np_random_permutation g N).2);
      [apply recorded_train_calls|done|done|by unfold getitem; rewrite Hsz|by rewrite HlenX].
  - reflexivity.
Qed.

End run_properties.

(** X9 for ten rows at a training fraction of minus a quarter: [k] is
    [-2], the last two entries of the permutation validate. *)
Lemma split_with_any_fraction_witness :
  exists train_mask val_mask g',
    split_masks Z Sample.permutation 10 (-0.25) 87 = Ok (train_mask, val_mask, g')
    /\ (count_true train_mask + count_true val_mask = 10)%nat
    /\ (0 <= -2 -> count_true train_mask = Z.to_nat (Z.min (-2) (Z.of_nat 10)))
    /\ (-2 < 0 -> count_true val_mask = Z.to_nat (Z.min (- -2) (Z.of_nat 10))).
Proof.
  apply (split_with_any_fraction Z Sample.permutation 10 (-0.25) 87 10%float (-2)).
  - vm_compute. reflexivity.
  - vm_compute. reflexivity.
  - apply (bool_decide_unpack _). vm_compute. exact I.
Defined.

(** X10 for ten rows at an infinite training fraction. *)
Lemma nonfinite_fraction_raises_witness :
  split_masks Z Sample.permutation 10 infinity 87 = Raise OverflowError.
Proof.
  apply (nonfinite_fraction_raises Z Sample.permutation 10 infinity 87).
  - vm_compute. reflexivity.
  - vm_compute. reflexivity.
Defined.

(** X11 on the sample table without its redshift column. *)
Lemma missing_redshift_raises_KeyError_witness :
  run Sample.log Sample.uninit Z Sample.permutation Sample.GPz Sample.inform_config
    (Columns (delete "redshift" Sample.photometry)) 87
  = Raise (KeyError "redshift").
Proof.
  apply (missing_redshift_raises_KeyError Sample.log Sample.uninit Z Sample.permutation
           Sample.GPz Sample.inform_config (Columns (delete "redshift" Sample.photometry))
           87 (delete "redshift" Sample.photometry) 3).
  - reflexivity.
  - apply (bool_decide_unpack _). vm_compute. exact I.
  - discriminate.
  - repeat constructor; vm_compute; by eexists.
  - vm_compute. reflexivity.
Defined.

(** X12 on the sample table with the configuration of the test suite. *)
Lemma run_trains_on_split_witness :
  exists model X train_mask val_mask nf k,
    run Sample.log Sample.uninit Z Sample.permutation Sample.GPz Sample.inform_config
      (Columns Sample.photometry) 87
    = Ok (model, Sample.lcg 87)
    /\ rec_train model
       = Some (X, [0.125; 0.25; 0.5]%float, ([0.125; 0.25; 0.5]%float, "normal", None),
               train_mask, val_mask, 30, 25)
    /\ _prepare_data Sample.log Sample.uninit Sample.photometry Sample.band_names
         Sample.err_names 99%float Sample.limits true = Ok X
    /\ length X = 3%nat
    /\ float_of_int (Z.of_nat 3) = Ok nf
    /\ float_is_int nf (Z.of_nat 3)
    /\ floor_of_float (nf * 0.75) = Some k
    /\ 0 <= k <= Z.of_nat 3
    /\ count_true train_mask = Z.to_nat k
    /\ count_true val_mask = (3 - Z.to_nat k)%nat.
Proof.
  apply (run_trains_on_split Sample.log Sample.uninit Z Sample.permutation
           (fun seed _ => seed) Sample.lcg Sample.inform_config (Columns Sample.photometry)
           87 Sample.photometry 3 [0.125; 0.25; 0.5]%float).
  - reflexivity.
  - apply (bool_decide_unpack _). vm_compute. exact I.
  - discriminate.
  - repeat constructor; vm_compute; by eexists.
  - vm_compute. reflexivity.
  - vm_compute. reflexivity.
  - vm_compute. reflexivity.
  - vm_compute. reflexivity.
  - apply (bool_decide_unpack _). vm_compute. exact I.
Defined.

(** ** More on what the encoder writes and raises *)

Lemma set_col_single j x (M M' : matrix) n w :
  np.set_col j [x] M = Ok M' -> has_shape M n w -> (j < w)%nat ->
  forall r, (r < n)%nat -> cell M' r j = Some x.
Proof.
  unfold np.set_col. intros H [Hn Hw] Hj r Hr.
  apply bind_Ok in H as (c & Hc & [= <-]).
  assert (c !! r = Some x) as Hcr.
  { unfold np.broadcast_to in Hc. case_decide as Hlen.
    - injection Hc as <-. simpl in Hlen. assert (r = 0%nat) as -> by lia. done.
    - injection Hc as <-. apply lookup_replicate_2. lia. }
  unfold cell. rewrite lookup_zip_with.
  destruct (lookup_lt_is_Some_2 M r) as [row Hrow]; [lia|].
  rewrite Hrow, Hcr. simpl. apply list_lookup_insert_eq.
  eapply Forall_forall in Hw; [|by eapply list_elem_of_lookup_2]. simpl in Hw. lia.
Qed.

Lemma SFeqb_nan_r (x : spec_float) : SFeqb x S754_nan = false.
Proof. by destruct x. Qed.

Lemma is_nondetect_nan_sentinel (nondet_val x : float) :
  np.isnan nondet_val = true -> is_nondetect nondet_val x = np.isnan x.
Proof.
  intros Hnan. unfold is_nondetect, np.isclose, np.isfinite, PrimFloat.is_finite.
  unfold np.isnan in Hnan. rewrite Hnan. simpl. rewrite andb_false_r. simpl.
  rewrite FloatAxioms.eqb_spec, (is_nan_spec _ Hnan), SFeqb_nan_r. done.
Qed.

Section prepare_data_cells.

Variable np_log : float -> float.
Variable uninit : nat -> nat -> float.
Variable data_dict : table.
Variable nondet_val : float.
Variable logflag : bool.

Lemma prepare_band_single_error numbands i band eband lim (M M' : matrix) n w
    (col : list float) (e m : float) (r : nat) :
  prepare_band np_log data_dict numbands nondet_val logflag i band eband lim M = Ok M' ->
  has_shape M n w -> (i < numbands)%nat -> (numbands + i < w)%nat ->
  data_dict !! band = Some col -> data_dict !! eband = Some [e] ->
  col !! r = Some m -> is_nondetect nondet_val m = false ->
  cell M' r (numbands + i) = Some (if logflag then np_log e else e).
Proof.
  unfold prepare_band, getitem. intros H Hs Hi Hni Hcol He Hm Hmask.
  rewrite Hcol in H. simpl in H. apply bind_Ok in H as (M1 & H1 & H).
  apply bind_Ok in H as (M2 & H2 & H). rewrite He in H. simpl in H.
  apply bind_Ok in H as (M3 & H3 & H).
  apply set_col_Ok with (n := n) (w := w) in H1 as (Hs1 & _); [|done|lia].
  apply set_col_where_Ok with (n := n) (w := w) in H2 as (Hs2 & Hlen & _); [|done|lia].
  rewrite length_fmap in Hlen.
  assert (Hr : (r < n)%nat) by (apply lookup_lt_Some in Hm; lia).
  assert (cell M3 r (numbands + i) = Some (if logflag then np_log e else e)) as Hcell.
  { destruct logflag; by eapply set_col_single. }
  assert (has_shape M3 n w) as Hs3.
  { destruct logflag;
      (apply set_col_Ok with (n := n) (w := w) in H3 as (? & _); [done|done|lia]). }
  apply set_col_where_Ok with (n := n) (w := w) in H as (_ & _ & _ & _ & Hfalse); [|done|lia].
  rewrite Hfalse; [done|]. by rewrite list_lookup_fmap, Hm, <- Hmask.
Qed.

(** X13: an error column of a single entry is broadcast: every detected
    row of the band gets that entry (its log, with [logflag]) as its
    error. *)
Theorem single_error_is_broadcast (bands err_bands : list string)
    (maglims : list (string * float)) (M : matrix) (i r : nat) (band eband : string)
    (mags : list float) (m e : float) :
  _prepare_data np_log uninit data_dict bands err_bands nondet_val maglims logflag = Ok M ->
  bands !! i = Some band -> err_bands !! i = Some eband -> (i < length maglims)%nat ->
  data_dict !! band = Some mags -> data_dict !! eband = Some [e] ->
  mags !! r = Some m -> is_nondetect nondet_val m = false ->
  cell M r (length bands + i) = Some (if logflag then np_log e else e).
Proof.
  intros H Hb He Hi Hmags Herr Hm Hmask.
  destruct (lookup_lt_is_Some_2 maglims.*2 i) as [lim Hlim]; [by rewrite length_fmap|].
  unfold _prepare_data in H. apply bind_Ok in H as (band0 & _ & H).
  apply bind_Ok in H as (col0 & _ & H).
  set (items := zip bands (zip err_bands maglims.*2)) in H.
  assert (items !! i = Some (band, (eband, lim))) as Hitem.
  { apply lookup_zip_with_Some. exists band, (eband, lim). split; [done|split; [done|]].
    apply lookup_zip_with_Some. by exists eband, lim. }
  assert (length items <= length bands)%nat as Hlen
    by (unfold items; rewrite length_zip_with; lia).
  assert (i < length items)%nat as Hlt by (by eapply lookup_lt_Some).
  rewrite <- (take_drop i items), prepare_loop_app in H.
  apply bind_Ok in H as (M1 & H1 & H). rewrite length_take_le in H by lia.
  rewrite (drop_S _ _ _ Hitem) in H. simpl in H. apply bind_Ok in H as (M2 & H2 & H3).
  eapply prepare_loop_Ok with (n := length col0) (w := (2 * length bands)%nat) in H1
    as (Hs1 & _); [|apply has_shape_empty|rewrite length_take; lia|lia].
  pose proof H2 as Hs2.
  eapply prepare_band_Ok with (n := length col0) (w := (2 * length bands)%nat) in Hs2
    as (Hs2 & _); [|done|lia|lia].
  eapply prepare_loop_Ok with (n := length col0) (w := (2 * length bands)%nat) in H3
    as (_ & Hsame & _); [|done|rewrite length_drop; lia|lia].
  rewrite Hsame by lia.
  by eapply prepare_band_single_error with (n := length col0) (w := (2 * length bands)%nat)
       (col := mags) (m := m) in H2; [|done|lia|lia|done..].
Qed.

(** X14: without [logflag] the error of a detected source is copied
    unchanged into column [B + i] of its row. *)
Theorem detected_error_kept_without_log (bands err_bands : list string)
    (maglims : list (string * float)) (M : matrix) (i r : nat) (band eband : string)
    (mags errs : list float) (m e : float) :
  logflag = false ->
  _prepare_data np_log uninit data_dict bands err_bands nondet_val maglims logflag = Ok M ->
  bands !! i = Some band -> err_bands !! i = Some eband -> (i < length maglims)%nat ->
  data_dict !! band = Some mags -> data_dict !! eband = Some errs ->
  mags !! r = Some m -> errs !! r = Some e -> is_nondetect nondet_val m = false ->
  cell M r (length bands + i) = Some e.
Proof.
  intros Hlog H Hb He Hi Hmags Herrs Hm Hre Hmask.
  destruct (lookup_lt_is_Some_2 maglims.*2 i) as [lim Hlim]; [by rewrite length_fmap|].
  eapply prepare_data_encoded with (i := i) (lim := lim) in H; [|done..].
  destruct H as (col & ecol & Hc & Hec & _ & Hcells).
  assert (col = mags) as -> by congruence. assert (ecol = errs) as -> by congruence.
  specialize (Hcells r m Hm). rewrite Hmask, Hlog in Hcells. by apply Hcells.
Qed.

(** X15: with NaN as the non-detection value nothing is close to it, and
    exactly the NaN magnitudes are replaced by the limit: every other
    magnitude, a sentinel such as 99 too, is copied unchanged. *)
Theorem nan_sentinel_replaces_only_nan (bands err_bands : list string)
    (maglims : list (string * float)) (M : matrix) (i r : nat) (band eband : string)
    (mags : list float) (m lim : float) :
  np.isnan nondet_val = true ->
  _prepare_data np_log uninit data_dict bands err_bands nondet_val maglims logflag = Ok M ->
  bands !! i = Some band -> err_bands !! i = Some eband -> maglims.*2 !! i = Some lim ->
  data_dict !! band = Some mags -> mags !! r = Some m ->
  cell M r i = Some (if np.isnan m then lim else m).
Proof.
  intros Hnan H Hb He Hlim Hmags Hm.
  eapply prepare_data_encoded with (i := i) (lim := lim) in H; [|done..].
  destruct H as (col & ecol & Hc & _ & _ & Hcells).
  assert (col = mags) as -> by congruence.
  specialize (Hcells r m Hm). rewrite is_nondetect_nan_sentinel in Hcells by done.
  destruct (np.isnan m); apply Hcells.
Qed.

(** X16: a magnitude column at a visited position whose length differs
    from the first band's, after positions whose columns fit, stops the
    call: with IndexError from the boolean mask when the column has one
    entry (the assignment broadcasts it, the mask of one entry does not
    fit the rows), with ValueError from the assignment otherwise. *)
Theorem ragged_magnitude_column_raises (bands err_bands : list string)
    (maglims : list (string * float)) (i : nat) (band0 band : string)
    (col0 col : list float) :
  bands !! 0%nat = Some band0 -> data_dict !! band0 = Some col0 ->
  (i < positions_visited bands err_bands maglims)%nat ->
  bands !! i = Some band -> data_dict !! band = Some col ->
  length col <> length col0 ->
  (forall j b eb, (j < i)%nat -> bands !! j = Some b -> err_bands !! j = Some eb ->
     columns_fit data_dict (length col0) b eb) ->
  _prepare_data np_log uninit data_dict bands err_bands nondet_val maglims logflag
  = Raise (if decide (length col = 1%nat) then IndexError else ValueError).
Proof.
  intros Hb0 Hc0 Hi Hb Hcol Hlen Hfits. unfold positions_visited in Hi.
  unfold _prepare_data, list_getitem, getitem. rewrite Hb0. simpl. rewrite Hc0. simpl.
  destruct (lookup_lt_is_Some_2 err_bands i) as [eband He]; [lia|].
  destruct (lookup_lt_is_Some_2 maglims.*2 i) as [lim Hl]; [rewrite length_fmap; lia|].
  assert (forall w, length (np.empty uninit (length col0) w) = length col0) as HlenM
    by (intros w; unfold np.empty; by rewrite length_fmap, length_seq).
  apply prepare_loop_raises with (i := i) (band := band) (eband := eband) (lim := lim).
  - apply lookup_zip_with_Some. exists band, (eband, lim). split; [done|split; [done|]].
    apply lookup_zip_with_Some. by exists eband, lim.
  - intros j b eb l Hj Hitem.
    apply lookup_zip_with_Some in Hitem as (b' & [e' l'] & [= -> -> ->] & Hbj & Hitem).
    apply lookup_zip_with_Some in Hitem as (e'' & l'' & [= -> ->] & Hej & _).
    rewrite HlenM. by apply (Hfits j).
  - intros M1 HM1. rewrite HlenM in HM1.
    unfold prepare_band, getitem. rewrite Hcol. simpl.
    unfold np.set_col, np.broadcast_to. rewrite decide_False by lia.
    destruct col as [|x [|y col']]; simpl.
    + done.
    + unfold np.set_col_where. rewrite decide_False; [done|].
      rewrite length_zip_with, length_replicate. simpl in *. lia.
    + done.
Qed.

End prepare_data_cells.

(** X13 on the sample table with one error for all sources in [u]. *)
Lemma single_error_is_broadcast_witness :
  exists M,
    _prepare_data Sample.log Sample.uninit (<["u_err" := [0.5%float]]> Sample.photometry)
      Sample.band_names Sample.err_names 99%float Sample.limits false = Ok M
    /\ cell M 2 (length Sample.band_names + 0) = Some 0.5%float.
Proof.
  eexists. split; [vm_compute; reflexivity|].
  apply (single_error_is_broadcast Sample.log Sample.uninit
           (<["u_err" := [0.5%float]]> Sample.photometry) 99%float false
           Sample.band_names Sample.err_names Sample.limits _ 0 2 "u" "u_err"
           [20.5; 99; 21.25]%float 21.25%float 0.5%float).
  - vm_compute. reflexivity.
  - reflexivity.
  - reflexivity.
  - vm_compute. lia.
  - vm_compute. reflexivity.
  - vm_compute. reflexivity.
  - reflexivity.
  - vm_compute. reflexivity.
Defined.

(** X14 on the sample table: source 2 keeps its [u] error. *)
Lemma detected_error_kept_without_log_witness :
  exists M,
    _prepare_data Sample.log Sample.uninit Sample.photometry Sample.band_names
      Sample.err_names 99%float Sample.limits false = Ok M
    /\ cell M 2 (length Sample.band_names + 0) = Some 0.125%float.
Proof.
  eexists. split; [vm_compute; reflexivity|].
  apply (detected_error_kept_without_log Sample.log Sample.uninit Sample.photometry
           99%float false Sample.band_names Sample.err_names Sample.limits _ 0 2
           "u" "u_err" [20.5; 99; 21.25]%float [0.5; 0.25; 0.125]%float 21.25%float
           0.125%float).
  - reflexivity.
  - vm_compute. reflexivity.
  - reflexivity.
  - reflexivity.
  - vm_compute. lia.
  - vm_compute. reflexivity.
  - vm_compute. reflexivity.
  - reflexivity.
  - reflexivity.
  - vm_compute. reflexivity.
Defined.

(** X15 on the sample table with NaN as the non-detection value: source 1
    keeps its [u] magnitude of 99. *)
Lemma nan_sentinel_replaces_only_nan_witness :
  exists M,
    _prepare_data Sample.log Sample.uninit Sample.photometry Sample.band_names
      Sample.err_names nan Sample.limits true = Ok M
    /\ cell M 1 0 = Some (if np.isnan 99 then 27.5%float else 99%float).
Proof.
  eexists. split; [vm_compute; reflexivity|].
  apply (nan_sentinel_replaces_only_nan Sample.log Sample.uninit Sample.photometry
           nan true Sample.band_names Sample.err_names Sample.limits _ 0 1 "u" "u_err"
           [20.5; 99; 21.25]%float 99%float 27.5%float).
  - vm_compute. reflexivity.
  - vm_compute. reflexivity.
  - reflexivity.
  - reflexivity.
  - vm_compute. reflexivity.
  - vm_compute. reflexivity.
  - reflexivity.
Defined.

(** X16 on the sample table with a [g] column of one entry. *)
Lemma ragged_magnitude_column_raises_witness :
  _prepare_data Sample.log Sample.uninit (<["g" := [21%float]]> Sample.photometry)
    Sample.band_names Sample.err_names 99%float Sample.limits true
  = Raise IndexError.
Proof.
  apply (ragged_magnitude_column_raises Sample.log Sample.uninit
           (<["g" := [21%float]]> Sample.photometry) 99%float true Sample.band_names
           Sample.err_names Sample.limits 1 "u" "g" [20.5; 99; 21.25]%float [21%float]).
  - reflexivity.
  - vm_compute. reflexivity.
  - vm_compute. lia.
  - reflexivity.
  - vm_compute. reflexivity.
  - vm_compute. lia.
  - intros [|j] b eb Hj; [|lia]. intros [= <-] [= <-].
    exists [20.5; 99; 21.25]%float, [0.5; 0.25; 0.125]%float.
    repeat split; vm_compute; auto.
Defined.

(** ** The encoder and the memory [np.empty] hands it

    One call of [_prepare_data] allocates its matrix once; two calls may
    find different contents in their memory.  When every band position is
    visited every cell is written, and the result does not depend on what
    was there. *)

Lemma cell_beyond (M : matrix) (r c : nat) : (length M <= r)%nat -> cell M r c = None.
Proof. intros Hr. unfold cell. by rewrite (proj2 (lookup_ge_None M r)) by lia. Qed.

Lemma set_col_agree (P : nat -> Prop) j col (M1 M2 : matrix) n w :
  has_shape M1 n w -> has_shape M2 n w -> (j < w)%nat ->
  (forall r c, P c -> cell M1 r c = cell M2 r c) ->
  (exists M1' M2',
     np.set_col j col M1 = Ok M1' /\ np.set_col j col M2 = Ok M2'
     /\ has_shape M1' n w /\ has_shape M2' n w
     /\ forall r c, P c \/ c = j -> cell M1' r c = cell M2' r c)
  \/ (exists e, np.set_col j col M1 = Raise e /\ np.set_col j col M2 = Raise e).
Proof.
  intros Hs1 Hs2 Hj Hagree.
  destruct (np.broadcast_to n col) as [c0|e] eqn:Hc.
  - left.
    assert (np.set_col j col M1 = Ok (zip_with (fun row x => <[j:=x]> row) M1 c0)) as H1
      by (unfold np.set_col; rewrite (proj1 Hs1), Hc; done).
    assert (np.set_col j col M2 = Ok (zip_with (fun row x => <[j:=x]> row) M2 c0)) as H2
      by (unfold np.set_col; rewrite (proj1 Hs2), Hc; done).
    eexists _, _. split; [exact H1|split; [exact H2|]].
    destruct (set_col_Ok _ _ _ _ _ _ H1 Hs1 Hj) as (Hs1' & Hoth1 & _).
    destruct (set_col_Ok _ _ _ _ _ _ H2 Hs2 Hj) as (Hs2' & Hoth2 & _).
    split; [done|split; [done|]]. intros r c Hc'.
    destruct (decide (c = j)) as [->|Hne].
    + unfold cell. rewrite !lookup_zip_with.
      destruct Hs1 as [Hn1 Hw1], Hs2 as [Hn2 Hw2].
      destruct (decide (r < n)%nat) as [Hr|Hr].
      * destruct (lookup_lt_is_Some_2 M1 r) as [row1 Hrow1]; [lia|].
        destruct (lookup_lt_is_Some_2 M2 r) as [row2 Hrow2]; [lia|].
        rewrite Hrow1, Hrow2. simpl. destruct (c0 !! r) as [x|]; simpl; [|done].
        eapply Forall_forall in Hw1; [|by eapply list_elem_of_lookup_2].
        eapply Forall_forall in Hw2; [|by eapply list_elem_of_lookup_2].
        simpl in Hw1, Hw2. by rewrite !list_lookup_insert_eq by lia.
      * by rewrite (proj2 (lookup_ge_None M1 r)), (proj2 (lookup_ge_None M2 r)) by lia.
    + rewrite Hoth1, Hoth2 by done. apply Hagree. tauto.
  - right. exists e. unfold np.set_col. by rewrite (proj1 Hs1), (proj1 Hs2), Hc.
Qed.

Lemma set_col_where_agree (P : nat -> Prop) j mask v (M1 M2 : matrix) n w :
  has_shape M1 n w -> has_shape M2 n w -> (j < w)%nat ->
  (forall r c, P c -> cell M1 r c = cell M2 r c) ->
  (exists M1' M2',
     np.set_col_where j mask v M1 = Ok M1' /\ np.set_col_where j mask v M2 = Ok M2'
     /\ has_shape M1' n w /\ has_shape M2' n w
     /\ forall r c, P c -> cell M1' r c = cell M2' r c)
  \/ (exists e, np.set_col_where j mask v M1 = Raise e
                /\ np.set_col_where j mask v M2 = Raise e).
Proof.
  intros Hs1 Hs2 Hj Hagree.
  destruct (decide (length mask = n)) as [Hlen|Hlen].
  - left.
    destruct (np.set_col_where j mask v M1) as [M1'|e1] eqn:H1;
      [|unfold np.set_col_where in H1; rewrite decide_True in H1 by (destruct Hs1; lia);
        discriminate H1].
    destruct (np.set_col_where j mask v M2) as [M2'|e2] eqn:H2;
      [|unfold np.set_col_where in H2; rewrite decide_True in H2 by (destruct Hs2; lia);
        discriminate H2].
    exists M1', M2'. split; [done|split; [done|]].
    destruct (set_col_where_Ok _ _ _ _ _ _ _ H1 Hs1 Hj) as (Hs1' & _ & Hoth1 & Ht1 & Hf1).
    destruct (set_col_where_Ok _ _ _ _ _ _ _ H2 Hs2 Hj) as (Hs2' & _ & Hoth2 & Ht2 & Hf2).
    split; [done|split; [done|]]. intros r c Hc.
    destruct (decide (c = j)) as [->|Hne].
    + destruct (mask !! r) as [[|]|] eqn:Hm.
      * by rewrite Ht1, Ht2.
      * rewrite Hf1, Hf2 by done. by apply Hagree.
      * apply lookup_ge_None in Hm.
        rewrite !cell_beyond; [done|destruct Hs2'; lia|destruct Hs1'; lia].
    + rewrite Hoth1, Hoth2 by done. by apply Hagree.
  - right. exists IndexError. unfold np.set_col_where.
    rewrite !decide_False; [done|destruct Hs2; lia|destruct Hs1; lia].
Qed.

Section any_memory.

Variable np_log : float -> float.
Variable data_dict : table.
Variable numbands : nat.
Variable nondet_val : float.
Variable logflag : bool.

Lemma prepare_band_agree (P : nat -> Prop) i band eband lim (M1 M2 : matrix) n w :
  has_shape M1 n w -> has_shape M2 n w -> (i < numbands)%nat -> (numbands + i < w)%nat ->
  (forall r c, P c -> cell M1 r c = cell M2 r c) ->
  (exists M1' M2',
     prepare_band np_log data_dict numbands nondet_val logflag i band eband lim M1 = Ok M1'
     /\ prepare_band np_log data_dict numbands nondet_val logflag i band eband lim M2 = Ok M2'
     /\ has_shape M1' n w /\ has_shape M2' n w
     /\ forall r c, P c \/ c = i \/ c = (numbands + i)%nat -> cell M1' r c = cell M2' r c)
  \/ (exists e,
        prepare_band np_log data_dict numbands nondet_val logflag i band eband lim M1
        = Raise e
        /\ prepare_band np_log data_dict numbands nondet_val logflag i band eband lim M2
           = Raise e).
Proof.
  intros Hs1 Hs2 Hi Hni Hagree. unfold prepare_band.
  destruct (getitem data_dict band) as [col|e]; simpl; [|right; by exists e].
  destruct (set_col_agree P i col M1 M2 n w Hs1 Hs2 ltac:(lia) Hagree)
    as [(A1 & A2 & -> & -> & HsA1 & HsA2 & HagA)|(e & -> & ->)];
    simpl; [|right; by exists e].
  destruct (set_col_where_agree _ i (is_nondetect nondet_val <$> col) lim A1 A2 n w
              HsA1 HsA2 ltac:(lia) HagA)
    as [(B1 & B2 & -> & -> & HsB1 & HsB2 & HagB)|(e & -> & ->)];
    simpl; [|right; by exists e].
  destruct (getitem data_dict eband) as [ecol|e]; simpl; [|right; by exists e].
  assert ((exists C1 C2,
             (if logflag then np.set_col (numbands + i) (np_log <$> ecol) B1
              else np.set_col (numbands + i) ecol B1) = Ok C1
             /\ (if logflag then np.set_col (numbands + i) (np_log <$> ecol) B2
                 else np.set_col (numbands + i) ecol B2) = Ok C2
             /\ has_shape C1 n w /\ has_shape C2 n w
             /\ forall r c, (P c \/ c = i) \/ c = (numbands + i)%nat ->
                  cell C1 r c = cell C2 r c)
          \/ (exists e,
                (if logflag then np.set_col (numbands + i) (np_log <$> ecol) B1
                 else np.set_col (numbands + i) ecol B1) = Raise e
                /\ (if logflag then np.set_col (numbands + i) (np_log <$> ecol) B2
                    else np.set_col (numbands + i) ecol B2) = Raise e)) as Hstep.
  { destruct logflag; by apply set_col_agree. }
  destruct Hstep as [(C1 & C2 & -> & -> & HsC1 & HsC2 & HagC)|(e & -> & ->)];
    simpl; [|right; by exists e].
  destruct (set_col_where_agree _ (numbands + i) (is_nondetect nondet_val <$> col) 1%float
              C1 C2 n w HsC1 HsC2 ltac:(lia) HagC)
    as [(D1 & D2 & HD1 & HD2 & HsD1 & HsD2 & HagD)|(e & He1 & He2)].
  - left. exists D1, D2. split; [done|split; [done|split; [done|split; [done|]]]].
    intros r c Hc. apply HagD. tauto.
  - right. by exists e.
Qed.

Lemma prepare_loop_agree items : forall i (M1 M2 : matrix) n w,
  has_shape M1 n w -> has_shape M2 n w ->
  (i + length items <= numbands)%nat -> (2 * numbands <= w)%nat ->
  (forall r c, (c < i \/ numbands <= c < numbands + i)%nat -> cell M1 r c = cell M2 r c) ->
  (exists M1' M2',
     prepare_loop np_log data_dict numbands nondet_val logflag items i M1 = Ok M1'
     /\ prepare_loop np_log data_dict numbands nondet_val logflag items i M2 = Ok M2'
     /\ has_shape M1' n w /\ has_shape M2' n w
     /\ forall r c, (c < i + length items
                     \/ numbands <= c < numbands + i + length items)%nat ->
          cell M1' r c = cell M2' r c)
  \/ (exists e,
        prepare_loop np_log data_dict numbands nondet_val logflag items i M1 = Raise e
        /\ prepare_loop np_log data_dict numbands nondet_val logflag items i M2 = Raise e).
Proof.
  induction items as [|[band [eband lim]] items IH]; intros i M1 M2 n w Hs1 Hs2 Hi Hw Hagree.
  - left. exists M1, M2. split; [done|split; [done|split; [done|split; [done|]]]].
    intros r c Hc. apply Hagree. simpl in Hc. lia.
  - simpl in Hi. simpl prepare_loop.
    destruct (prepare_band_agree _ i band eband lim M1 M2 n w Hs1 Hs2 ltac:(lia) ltac:(lia)
                Hagree)
      as [(A1 & A2 & -> & -> & HsA1 & HsA2 & HagA)|(e & -> & ->)];
      simpl; [|right; by exists e].
    destruct (IH (S i) A1 A2 n w HsA1 HsA2 ltac:(lia) Hw)
      as [(B1 & B2 & HB1 & HB2 & HsB1 & HsB2 & HagB)|(e & He1 & He2)].
    + intros r c Hc. apply HagA. lia.
    + left. exists B1, B2. split; [done|split; [done|split; [done|split; [done|]]]].
      intros r c Hc. apply HagB. simpl in Hc. lia.
    + right. by exists e.
Qed.

End any_memory.

Lemma prepare_data_any_memory (np_log : float -> float)
    (uninit1 uninit2 : nat -> nat -> float) (data_dict : table)
    (bands err_bands : list string) (nondet_val : float)
    (maglims : list (string * float)) (logflag : bool) :
  (length bands <= length err_bands)%nat -> (length bands <= length maglims)%nat ->
  _prepare_data np_log uninit1 data_dict bands err_bands nondet_val maglims logflag
  = _prepare_data np_log uninit2 data_dict bands err_bands nondet_val maglims logflag.
Proof.
  intros Herr Hlim. unfold _prepare_data.
  destruct (list_getitem bands 0) as [band0|e]; [|done].
  cbn [mbind result_bind]. destruct (getitem data_dict band0) as [col0|e]; [|done].
  cbn [mbind result_bind].
  remember (2 * length bands)%nat as w eqn:Hw.
  remember (zip bands (zip err_bands maglims.*2)) as items eqn:Hitems.
  assert (length items = length bands) as Hlen
    by (subst items; rewrite !length_zip_with, length_fmap; lia).
  destruct (prepare_loop_agree np_log data_dict (length bands) nondet_val logflag items 0
              (np.empty uninit1 (length col0) w) (np.empty uninit2 (length col0) w)
              (length col0) w)
    as [(M1 & M2 & -> & -> & Hs1 & Hs2 & Hag)|(e & -> & ->)];
    [apply has_shape_empty|apply has_shape_empty|lia|lia|intros r c Hc; lia| |done].
  f_equal. apply (matrix_ext M1 M2 (length col0) w); [done|done|].
  intros r c _ Hc. apply Hag. lia.
Qed.

(** ** The columns [_prepare_data], [run] and [_process_chunk] read *)

Section columns_read.

Variable np_log : float -> float.
Variable rng : Type.
Variable np_random_permutation : rng -> nat -> list nat * rng.
Variable GPz : GPz_module rng.
Variable norm_pdf : float -> float -> float -> float.

(** X6: when every band has an error band and a limit, [_prepare_data]
    depends on the table only through the band and error-band columns:
    two calls, whatever their freshly allocated memory holds, on two
    tables that agree on those columns return the same matrix or raise
    the same exception. *)
Theorem prepare_data_reads_band_columns (uninit1 uninit2 : nat -> nat -> float)
    (t1 t2 : table) (bands err_bands : list string) (nondet_val : float)
    (maglims : list (string * float)) (logflag : bool) :
  (length bands <= length err_bands)%nat -> (length bands <= length maglims)%nat ->
  Forall (fun name => t1 !! name = t2 !! name) (bands ++ err_bands) ->
  _prepare_data np_log uninit1 t1 bands err_bands nondet_val maglims logflag
  = _prepare_data np_log uninit2 t2 bands err_bands nondet_val maglims logflag.
Proof.
  intros Herr Hlim Hsame.
  rewrite (prepare_data_ext np_log uninit1 t1 t2)
    by (intros name Hin; by eapply Forall_forall in Hsame).
  by apply prepare_data_any_memory.
Qed.

(** X17: when every band has an error band and a limit, [_process_chunk]
    depends on its chunk only through the band and error-band columns:
    two calls, whatever their freshly allocated memory holds, on two
    chunks that agree on those columns build the same ensemble or raise
    the same exception, whatever else the chunks hold (a redshift column,
    for one). *)
Theorem process_chunk_reads_band_columns (uninit1 uninit2 : nat -> nat -> float)
    (config : EstimatorConfig) (model : GP_model GPz) (start end_ : nat)
    (t1 t2 : table) (first : bool) :
  (length (est_bands config) <= length (est_err_bands config))%nat ->
  (length (est_bands config) <= length (est_mag_limits config))%nat ->
  Forall (fun name => t1 !! name = t2 !! name) (est_bands config ++ est_err_bands config) ->
  _process_chunk np_log uninit1 rng GPz norm_pdf config model start end_ t1 first
  = _process_chunk np_log uninit2 rng GPz norm_pdf config model start end_ t2 first.
Proof.
  intros Herr Hlim Hsame. unfold _process_chunk.
  rewrite (prepare_data_ext np_log uninit1 t1 t2)
    by (intros name Hin; by eapply Forall_forall in Hsame).
  by rewrite (prepare_data_any_memory np_log uninit1 uninit2).
Qed.

(** X18: without an HDF5 group and when every band has an error band and
    a limit, [run] depends on its table only through the band columns, the
    error-band columns and the redshift column: two runs, whatever their
    freshly allocated memory holds, from the same generator state on two
    tables that agree on those columns make the same calls and return the
    same result, whatever the [GPz] module. *)
Theorem run_reads_band_and_redshift_columns (uninit1 uninit2 : nat -> nat -> float)
    (config : InformConfig) (t1 t2 : table) (g : rng) :
  hdf5_groupname config = "" ->
  (length (bands config) <= length (err_bands config))%nat ->
  (length (bands config) <= length (mag_limits config))%nat ->
  Forall (fun name => t1 !! name = t2 !! name)
    (redshift_col config :: bands config ++ err_bands config) ->
  run np_log uninit1 rng np_random_permutation GPz config (Columns t1) g
  = run np_log uninit2 rng np_random_permutation GPz config (Columns t2) g.
Proof.
  intros Hgroup Herr Hlim Hsame. apply Forall_cons in Hsame as [Hsz Hsame].
  unfold run, training_table. rewrite !decide_True by done. simpl.
  rewrite (prepare_data_ext np_log uninit1 t1 t2)
    by (intros name Hin; by eapply Forall_forall in Hsame).
  rewrite (prepare_data_any_memory np_log uninit1 uninit2) by done.
  unfold getitem. by rewrite Hsz.
Qed.

End columns_read.

(** X6 on the sample table and the same table without its redshift
    column, the second call finding ones where the first finds zeros. *)
Lemma prepare_data_reads_band_columns_witness :
  _prepare_data Sample.log Sample.uninit Sample.photometry Sample.band_names
    Sample.err_names 99%float Sample.limits true
  = _prepare_data Sample.log (fun _ _ => 1%float) (delete "redshift" Sample.photometry)
      Sample.band_names Sample.err_names 99%float Sample.limits true.
Proof.
  apply (prepare_data_reads_band_columns Sample.log Sample.uninit (fun _ _ => 1%float)
           Sample.photometry (delete "redshift" Sample.photometry) Sample.band_names
           Sample.err_names 99%float Sample.limits true).
  - vm_compute. lia.
  - vm_compute. lia.
  - repeat constructor.
Defined.

(** X17 on the sample table and the same table without its redshift
    column, the second call finding ones where the first finds zeros. *)
Lemma process_chunk_reads_band_columns_witness :
  _process_chunk Sample.log Sample.uninit Z Sample.GPz Sample.norm_pdf
    Sample.estimator_config Sample.model 0 3 Sample.photometry true
  = _process_chunk Sample.log (fun _ _ => 1%float) Z Sample.GPz Sample.norm_pdf
      Sample.estimator_config Sample.model 0 3 (delete "redshift" Sample.photometry) true.
Proof.
  apply (process_chunk_reads_band_columns Sample.log Z Sample.GPz Sample.norm_pdf
           Sample.uninit (fun _ _ => 1%float) Sample.estimator_config Sample.model 0 3
           Sample.photometry (delete "redshift" Sample.photometry) true).
  - vm_compute. lia.
  - vm_compute. lia.
  - repeat constructor.
Defined.

(** X18 on the sample table and the same table with one more column, the
    second run finding ones where the first finds zeros. *)
Lemma run_reads_band_and_redshift_columns_witness :
  run Sample.log Sample.uninit Z Sample.permutation Sample.GPz Sample.inform_config
    (Columns Sample.photometry) 87
  = run Sample.log (fun _ _ => 1%float) Z Sample.permutation Sample.GPz
      Sample.inform_config (Columns (<["r" := [19; 20; 21]%float]> Sample.photometry)) 87.
Proof.
  apply (run_reads_band_and_redshift_columns Sample.log Z Sample.permutation Sample.GPz
           Sample.uninit (fun _ _ => 1%float) Sample.inform_config Sample.photometry
           (<["r" := [19; 20; 21]%float]> Sample.photometry) 87).
  - reflexivity.
  - vm_compute. lia.
  - vm_compute. lia.
  - repeat constructor.
Defined.
